(** * CPU-affinity-toolkit: a shallow embedding of [src/main.cpp]

    The program is one translation unit: it reads two command-line integers
    (a process identifier and a core index), asks the host how many logical
    processors are online, checks the core index against that count and
    calls the platform facility that pins the process to the core.

    The embedding follows the source function by function.  C++ integers are
    [Z] with the conversions between widths written out; [std::string] is
    [string]; the two output streams, the thread's last-error value, [errno],
    the table of open handles and the log of library and system calls form an
    explicit [World] threaded through a small state-and-exception monad. *)

From Stdlib Require Import ZArith Lia Bool List String Ascii.
From Stdlib Require Import Numbers.DecimalString Numbers.DecimalPos.
Import ListNotations.

Local Open Scope string_scope.
Local Open Scope Z_scope.

(** ** Machine integers *)

Module MachineInt.

(** Value of a conversion to an unsigned integer type of [w] bits. *)
Definition to_unsigned (w : Z) (x : Z) : Z := x mod 2 ^ w.

(** Value of a conversion to a signed (two's complement) integer type of
    [w] bits. *)
Definition to_signed (w : Z) (x : Z) : Z :=
  (x + 2 ^ (w - 1)) mod 2 ^ w - 2 ^ (w - 1).

Definition signed_min (w : Z) : Z := - 2 ^ (w - 1).
Definition signed_max (w : Z) : Z := 2 ^ (w - 1) - 1.
Definition unsigned_max (w : Z) : Z := 2 ^ w - 1.

Definition in_signed (w : Z) (x : Z) : Prop :=
  signed_min w <= x <= signed_max w.
Definition in_unsigned (w : Z) (x : Z) : Prop :=
  0 <= x <= unsigned_max w.

Definition in_signedb (w : Z) (x : Z) : bool :=
  (signed_min w <=? x) && (x <=? signed_max w).

(** [int] and [unsigned int] are 32 bits wide on every target the source
    can be built for. *)
Definition int_bits : Z := 32.

End MachineInt.
Import MachineInt.

(** ** Build targets

    The source selects one of three bodies of [set_process_affinity] with
    [#ifdef _WIN32] / [#elif __linux__] / [#else], and the width of [long],
    of [size_t] and of [DWORD_PTR] depends on the data model of the target. *)

Inductive OS : Type := Windows | Linux | OtherOS.

Inductive Target : Type :=
| Win32        (* _WIN32, ILP32: long 32, DWORD_PTR 32 *)
| Win64        (* _WIN32, LLP64: long 32, DWORD_PTR 64 *)
| Linux32      (* __linux__, ILP32: long 32, size_t 32 *)
| Linux64      (* __linux__, LP64: long 64, size_t 64 *)
| Other32      (* neither macro, long 32 *)
| Other64.     (* neither macro, long 64 *)

Definition os_of (t : Target) : OS :=
  match t with
  | Win32 | Win64 => Windows
  | Linux32 | Linux64 => Linux
  | Other32 | Other64 => OtherOS
  end.

Definition long_bits (t : Target) : Z :=
  match t with
  | Win32 | Win64 | Linux32 | Other32 => 32
  | Linux64 | Other64 => 64
  end.

(** Width of [size_t] and of [DWORD_PTR]. *)
Definition ptr_bits (t : Target) : Z :=
  match t with
  | Win32 | Linux32 | Other32 => 32
  | Win64 | Linux64 | Other64 => 64
  end.

(** ** Text *)

Definition endl : string := String (ascii_of_nat 10) EmptyString.

(** [std::to_string] and [operator<<] on an integer: decimal digits, a
    leading minus sign for a negative value. *)
Definition to_string (z : Z) : string := NilZero.string_of_int (Z.to_int z).

(** [contains sub s]: [sub] occurs in [s] as a contiguous substring. *)
Fixpoint starts_with (p s : string) : bool :=
  match p, s with
  | EmptyString, _ => true
  | String a p', String b s' => Ascii.eqb a b && starts_with p' s'
  | String _ _, EmptyString => false
  end.

Fixpoint contains (sub s : string) : bool :=
  starts_with sub s ||
  match s with
  | EmptyString => false
  | String _ s' => contains sub s'
  end.

(** ** [std::stol] and [std::stoi]

    Both are the library's wrappers around [strtol] in base 10: leading
    white space is skipped, one optional sign is read, then the longest run
    of decimal digits.  Nothing after the digits is looked at.  With no digit
    there is no conversion and the wrapper throws [std::invalid_argument];
    a value that [strtol] cannot represent in [long] (it reports [ERANGE])
    or, for [stoi], that does not fit [int], makes it throw
    [std::out_of_range]. *)

Definition isspace (c : ascii) : bool :=
  let n := nat_of_ascii c in
  (Nat.eqb n 32) || ((Nat.leb 9 n) && (Nat.leb n 13)).

Definition isdigit (c : ascii) : bool :=
  let n := nat_of_ascii c in (Nat.leb 48 n) && (Nat.leb n 57).

Definition digit_value (c : ascii) : Z := Z.of_nat (nat_of_ascii c) - 48.

Fixpoint skip_space (s : string) : string :=
  match s with
  | String c s' => if isspace c then skip_space s' else s
  | EmptyString => s
  end.

(** The optional sign: [true] for a minus sign. *)
Definition read_sign (s : string) : bool * string :=
  match s with
  | String "-" s' => (true, s')
  | String "+" s' => (false, s')
  | _ => (false, s)
  end.

(** Reads the longest prefix of digits; [acc] is the value read so far and
    [n] the number of digits consumed. *)
Fixpoint read_digits (acc : Z) (n : nat) (s : string) : Z * nat * string :=
  match s with
  | String c s' =>
      if isdigit c then read_digits (10 * acc + digit_value c) (S n) s'
      else (acc, n, s)
  | EmptyString => (acc, n, s)
  end.

Inductive ParseError : Type := InvalidArgument | OutOfRange.

Inductive Parsed : Type :=
| Value (v : Z)
| Failed (e : ParseError).

(** The mathematical value of the subject sequence, when there is one. *)
Definition strtol_value (s : string) : option Z :=
  let '(neg, s1) := read_sign (skip_space s) in
  let '(v, n, _) := read_digits 0 0 s1 in
  match n with
  | O => None
  | S _ => Some (if neg then - v else v)
  end.

(** [sto w_long w s]: parse through [strtol] into a [long] of [w_long] bits,
    then deliver a signed integer of [w] bits. *)
Definition sto (w_long w : Z) (s : string) : Parsed :=
  match strtol_value s with
  | None => Failed InvalidArgument
  | Some v =>
      if in_signedb w_long v && in_signedb w v then Value v
      else Failed OutOfRange
  end.

Definition stol (t : Target) (s : string) : Parsed :=
  sto (long_bits t) (long_bits t) s.

Definition stoi (t : Target) (s : string) : Parsed :=
  sto (long_bits t) int_bits s.

(** ** The world the program runs in *)

(** [cpu_set_t] is a fixed array of [CPU_SETSIZE] bits; it is kept as the
    integer whose binary digits are the bits of the array. *)
Definition cpu_set_t : Type := Z.

(** Calls that leave the translation unit, in the order they are made,
    together with the entry into [set_process_affinity]. *)
Inductive Call : Type :=
| Call_stol (s : string)
| Call_stoi (s : string)
| Call_GetSystemInfo
| Call_sysconf
| Enter_set_process_affinity (pid core_id : Z)
| Call_OpenProcess (access pid : Z)
| Call_GetLastError
| Call_SetProcessAffinityMask (h mask : Z)
| Call_CloseHandle (h : Z)
| Call_sched_setaffinity (pid size : Z) (set : cpu_set_t)
| Call_strerror (e : Z).

(** What the operating system answers.  Each facility is asked at most once
    in a run, so a function of the arguments is enough. *)
Record Host : Type := {
  target : Target;
  (** [dwNumberOfProcessors] after [GetSystemInfo], or the value returned by
      [sysconf(_SC_NPROCESSORS_ONLN)]. *)
  os_processors : Z;
  (** [OpenProcess access pid]: the handle, [0] for [NULL]. *)
  os_OpenProcess : Z -> Z -> Z;
  (** The last-error code left by an [OpenProcess] that returned [NULL]. *)
  os_OpenProcess_error : Z -> Z -> Z;
  (** [SetProcessAffinityMask h mask]: [None] when it returns [TRUE],
      [Some code] when it returns [FALSE] and leaves [code] as last error. *)
  os_SetProcessAffinityMask : Z -> Z -> option Z;
  (** [sched_setaffinity pid size set]: [None] when it returns [0],
      [Some e] when it returns [-1] with [errno] set to [e]. *)
  os_sched_setaffinity : Z -> Z -> cpu_set_t -> option Z;
  os_strerror : Z -> string
}.

Record World : Type := {
  cout : string;
  cerr : string;
  last_error : Z;
  errno : Z;
  handles : list Z;
  calls : list Call
}.

Definition initial_world : World :=
  {| cout := ""; cerr := ""; last_error := 0; errno := 0;
     handles := []; calls := [] |}.

Inductive Exn : Type :=
| invalid_argument
| out_of_range
| runtime_error (what : string).

(** A computation returns, throws, or has no defined behaviour. *)
Inductive Outcome (A : Type) : Type :=
| Returns (a : A)
| Throws (e : Exn)
| Undefined.
Arguments Returns {A} a.
Arguments Throws {A} e.
Arguments Undefined {A}.

Definition M (A : Type) : Type := World -> Outcome A * World.

Definition ret {A} (a : A) : M A := fun w => (Returns a, w).

Definition bind {A B} (c : M A) (k : A -> M B) : M B :=
  fun w =>
    match c w with
    | (Returns a, w') => k a w'
    | (Throws e, w') => (Throws e, w')
    | (Undefined, w') => (Undefined, w')
    end.

Definition throw {A} (e : Exn) : M A := fun w => (Throws e, w).

Definition undefined {A} : M A := fun w => (Undefined, w).

(** [try { body } catch ...]: [handler e] is [None] when no clause matches
    the exception, which then propagates. *)
Definition try_catch {A} (body : M A) (handler : Exn -> option (M A)) : M A :=
  fun w =>
    match body w with
    | (Throws e, w') =>
        match handler e with
        | Some h => h w'
        | None => (Throws e, w')
        end
    | r => r
    end.

Declare Scope monad_scope.
Delimit Scope monad_scope with monad.
Notation "x <- c ;; k" := (bind c (fun x => k))
  (at level 61, c at next level, right associativity) : monad_scope.
Notation "c ;; k" := (bind c (fun _ => k))
  (at level 61, right associativity) : monad_scope.
Local Open Scope monad_scope.

Definition log (c : Call) : M unit :=
  fun w =>
    (Returns tt,
     {| cout := cout w; cerr := cerr w; last_error := last_error w;
        errno := errno w; handles := handles w;
        calls := (calls w ++ [c])%list |}).

Definition cout_put (s : string) : M unit :=
  fun w =>
    (Returns tt,
     {| cout := cout w ++ s; cerr := cerr w; last_error := last_error w;
        errno := errno w; handles := handles w; calls := calls w |}).

Definition cerr_put (s : string) : M unit :=
  fun w =>
    (Returns tt,
     {| cout := cout w; cerr := cerr w ++ s; last_error := last_error w;
        errno := errno w; handles := handles w; calls := calls w |}).

Definition set_last_error (code : Z) : M unit :=
  fun w =>
    (Returns tt,
     {| cout := cout w; cerr := cerr w; last_error := code;
        errno := errno w; handles := handles w; calls := calls w |}).

Definition set_errno (e : Z) : M unit :=
  fun w =>
    (Returns tt,
     {| cout := cout w; cerr := cerr w; last_error := last_error w;
        errno := e; handles := handles w; calls := calls w |}).

Definition set_handles (hs : list Z) : M unit :=
  fun w =>
    (Returns tt,
     {| cout := cout w; cerr := cerr w; last_error := last_error w;
        errno := errno w; handles := hs; calls := calls w |}).

Definition get {A} (f : World -> A) : M A := fun w => (Returns (f w), w).

(** Removes the first occurrence of a handle from the table. *)
Fixpoint remove_handle (h : Z) (hs : list Z) : list Z :=
  match hs with
  | [] => []
  | x :: hs' => if x =? h then hs' else x :: remove_handle h hs'
  end.

Fixpoint has_handle (h : Z) (hs : list Z) : bool :=
  match hs with
  | [] => false
  | x :: hs' => (x =? h) || has_handle h hs'
  end.

(** ** Library and system calls *)

Section Program.

Variable host : Host.

Definition call_stol (s : string) : M Z :=
  log (Call_stol s) ;;
  match stol (target host) s with
  | Value v => ret v
  | Failed InvalidArgument => throw invalid_argument
  | Failed OutOfRange => throw out_of_range
  end.

Definition call_stoi (s : string) : M Z :=
  log (Call_stoi s) ;;
  match stoi (target host) s with
  | Value v => ret v
  | Failed InvalidArgument => throw invalid_argument
  | Failed OutOfRange => throw out_of_range
  end.

(** Modelled from the spec: the access rights [PROCESS_SET_INFORMATION] and
    [PROCESS_QUERY_INFORMATION] are constants of <windows.h>, which is not
    part of the repository; they stand for "the minimum rights needed to
    query and set scheduling information". *)
Definition PROCESS_SET_INFORMATION : Z := 512.
Definition PROCESS_QUERY_INFORMATION : Z := 1024.

Definition ERROR_INVALID_HANDLE : Z := 6.

Definition OpenProcess (access pid : Z) : M Z :=
  log (Call_OpenProcess access pid) ;;
  let h := os_OpenProcess host access pid in
  if h =? 0 then
    set_last_error (os_OpenProcess_error host access pid) ;; ret 0
  else
    hs <- get handles ;;
    set_handles (h :: hs) ;; ret h.

Definition GetLastError : M Z :=
  log Call_GetLastError ;; get last_error.

Definition SetProcessAffinityMask (h mask : Z) : M bool :=
  log (Call_SetProcessAffinityMask h mask) ;;
  match os_SetProcessAffinityMask host h mask with
  | None => ret true
  | Some code => set_last_error code ;; ret false
  end.

(** Closing a handle of the table succeeds and leaves the last-error value
    as it was; closing anything else fails. *)
Definition CloseHandle (h : Z) : M bool :=
  log (Call_CloseHandle h) ;;
  hs <- get handles ;;
  if has_handle h hs then set_handles (remove_handle h hs) ;; ret true
  else set_last_error ERROR_INVALID_HANDLE ;; ret false.

(** Modelled from the spec: [cpu_set_t], [CPU_ZERO] and [CPU_SET] are
    declared by <sched.h>, which is not part of the repository.  The spec
    has "construct an empty affinity set, then set exactly one bit at
    CoreIndex"; the set is the C library's array of [CPU_SETSIZE] bits, and
    its [CPU_SET] converts the index to [size_t] and touches the array only
    when the index is a position of it. *)
Definition CPU_SETSIZE : Z := 1024.
Definition sizeof_cpu_set_t : Z := CPU_SETSIZE / 8.
Definition CPU_ZERO : cpu_set_t := 0.
Definition CPU_SET (cpu : Z) (set : cpu_set_t) : cpu_set_t :=
  let cpu' := to_unsigned (ptr_bits (target host)) cpu in
  if cpu' / 8 <? sizeof_cpu_set_t then Z.lor set (Z.shiftl 1 cpu')
  else set.

Definition sched_setaffinity (pid size : Z) (set : cpu_set_t) : M Z :=
  log (Call_sched_setaffinity pid size set) ;;
  match os_sched_setaffinity host pid size set with
  | None => ret 0
  | Some e => set_errno e ;; ret (-1)
  end.

Definition strerror (e : Z) : M string :=
  log (Call_strerror e) ;; ret (os_strerror host e).

(** [1ULL << n]: defined only for a shift count from 0 to 63. *)
Definition shl_ull (x n : Z) : M Z :=
  if (0 <=? n) && (n <? 64) then ret (to_unsigned 64 (Z.shiftl x n))
  else undefined.

(** ** The program *)

Definition print_usage (prog_name : string) : M unit :=
  cerr_put ("A cross-platform tool to set CPU affinity for a process."
            ++ endl) ;;
  cerr_put ("Usage: " ++ prog_name ++ " <pid> <core_id>" ++ endl) ;;
  cerr_put ("Example (Linux):   sudo " ++ prog_name ++ " 12345 0" ++ endl) ;;
  cerr_put ("Example (Windows): " ++ prog_name ++ " 6789 1" ++ endl) ;;
  cerr_put (endl
            ++ "Note: This tool usually requires administrator/root privileges."
            ++ endl).

(** The value [get_hardware_concurrency] computes from the host's answer. *)
Definition hardware_concurrency : Z :=
  match os_of (target host) with
  | Windows => to_unsigned int_bits (os_processors host)
  | _ =>
      let nprocs :=
        to_signed (long_bits (target host)) (os_processors host) in
      if 0 <? nprocs then to_unsigned int_bits nprocs else 0
  end.

Definition get_hardware_concurrency : M Z :=
  match os_of (target host) with
  | Windows => log Call_GetSystemInfo
  | _ => log Call_sysconf
  end ;;
  ret hardware_concurrency.

(** [_WIN32]: [void set_process_affinity(unsigned long pid, int core_id)] *)
Definition set_process_affinity_windows (pid core_id : Z) : M unit :=
  cout_put ("Running on Windows." ++ endl) ;;
  hProcess <- OpenProcess
                (Z.lor PROCESS_SET_INFORMATION PROCESS_QUERY_INFORMATION)
                pid ;;
  (if hProcess =? 0 then
     code <- GetLastError ;;
     throw (runtime_error ("Could not open process with PID "
                           ++ to_string pid ++ ". Error code: "
                           ++ to_string code))
   else ret tt) ;;
  shifted <- shl_ull 1 core_id ;;
  let affinity_mask := to_unsigned (ptr_bits (target host)) shifted in
  ok <- SetProcessAffinityMask hProcess affinity_mask ;;
  (if negb ok then
     CloseHandle hProcess ;;
     code <- GetLastError ;;
     throw (runtime_error
              ("Failed to set process affinity mask. Error code: "
               ++ to_string code))
   else ret tt) ;;
  cout_put ("Successfully set affinity for PID " ++ to_string pid
            ++ " to core " ++ to_string core_id ++ endl) ;;
  CloseHandle hProcess ;;
  ret tt.

(** [__linux__]: [void set_process_affinity(pid_t pid, int core_id)] *)
Definition set_process_affinity_linux (pid core_id : Z) : M unit :=
  cout_put ("Running on Linux." ++ endl) ;;
  let cpuset := CPU_SET core_id CPU_ZERO in
  result <- sched_setaffinity pid sizeof_cpu_set_t cpuset ;;
  (if negb (result =? 0) then
     e <- get errno ;;
     text <- strerror e ;;
     throw (runtime_error ("sched_setaffinity failed: " ++ text))
   else ret tt) ;;
  cout_put ("Successfully set affinity for PID " ++ to_string pid
            ++ " to core " ++ to_string core_id ++ endl).

(** Neither macro: [void set_process_affinity(long pid, int core_id)] *)
Definition set_process_affinity_other (pid core_id : Z) : M unit :=
  throw (runtime_error "Unsupported operating system.").

(** Conversion of the [long] argument to the type of the first parameter:
    [unsigned long] (32 bits on Windows), [pid_t] (a 32-bit [int]) or
    [long]. *)
Definition to_pid (p : Z) : Z :=
  match os_of (target host) with
  | Windows => to_unsigned (long_bits (target host)) p
  | Linux => to_signed int_bits p
  | OtherOS => to_signed (long_bits (target host)) p
  end.

Definition set_process_affinity (pid_long core_id : Z) : M unit :=
  let pid := to_pid pid_long in
  log (Enter_set_process_affinity pid core_id) ;;
  match os_of (target host) with
  | Windows => set_process_affinity_windows pid core_id
  | Linux => set_process_affinity_linux pid core_id
  | OtherOS => set_process_affinity_other pid core_id
  end.

Definition privilege_hint : string :=
  "Please ensure the PID is correct and you have sufficient privileges (e.g., run with 'sudo' or as Administrator).".

(** [main]: [prog_name] is [argv[0]] and [args] are [argv[1]] to
    [argv[argc-1]], so [argc] is [1 + length args].  The parse block
    delivers either the exit code of a [return] inside a handler or the
    two parsed values. *)
Definition main (prog_name : string) (args : list string) : M Z :=
  match args with
  | [arg1; arg2] =>
      parsed <-
        try_catch
          (pid_long <- call_stol arg1 ;;
           core_id <- call_stoi arg2 ;;
           ret (inr (pid_long, core_id)))
          (fun e =>
             match e with
             | invalid_argument =>
                 Some (cerr_put
                         ("Error: Invalid argument. PID and core_id must be integers."
                          ++ endl) ;;
                       print_usage prog_name ;;
                       ret (inl 1))
             | out_of_range =>
                 Some (cerr_put ("Error: Argument is out of range." ++ endl) ;;
                       print_usage prog_name ;;
                       ret (inl 1))
             | runtime_error _ => None
             end) ;;
      match parsed with
      | inl code => ret code
      | inr (pid_long, core_id) =>
          num_cpus <- get_hardware_concurrency ;;
          if (0 <? num_cpus)
             && ((core_id <? 0)
                 || (num_cpus <=? to_unsigned int_bits core_id))
          then
            cerr_put ("Error: Core ID " ++ to_string core_id
                      ++ " is out of range. "
                      ++ "Available cores on this system: 0 to "
                      ++ to_string (to_unsigned int_bits (num_cpus - 1))
                      ++ "." ++ endl) ;;
            ret 1
          else
            try_catch
              (set_process_affinity
                 (to_signed (long_bits (target host)) pid_long) core_id ;;
               ret 0)
              (fun e =>
                 match e with
                 | runtime_error what =>
                     Some (cerr_put ("An error occurred: " ++ what ++ endl) ;;
                           cerr_put (privilege_hint ++ endl) ;;
                           ret 1)
                 | _ => None
                 end)
      end
  | _ =>
      print_usage prog_name ;;
      ret 1
  end.

Definition run (prog_name : string) (args : list string)
  : Outcome Z * World :=
  main prog_name args initial_world.

End Program.

(** ** Vocabulary of the properties *)

(** The text [print_usage] writes. *)
Definition usage_text (prog_name : string) : string :=
  "A cross-platform tool to set CPU affinity for a process." ++ endl
  ++ "Usage: " ++ prog_name ++ " <pid> <core_id>" ++ endl
  ++ "Example (Linux):   sudo " ++ prog_name ++ " 12345 0" ++ endl
  ++ "Example (Windows): " ++ prog_name ++ " 6789 1" ++ endl
  ++ endl
  ++ "Note: This tool usually requires administrator/root privileges."
  ++ endl.

Definition invalid_argument_text : string :=
  "Error: Invalid argument. PID and core_id must be integers." ++ endl.

Definition out_of_range_text : string :=
  "Error: Argument is out of range." ++ endl.

Definition core_range_text (core_id n : Z) : string :=
  "Error: Core ID " ++ to_string core_id ++ " is out of range. "
  ++ "Available cores on this system: 0 to " ++ to_string (n - 1) ++ "."
  ++ endl.

Definition platform_error_text (what : string) : string :=
  "An error occurred: " ++ what ++ endl ++ privilege_hint ++ endl.

(** A platform call: the entry into [set_process_affinity] and every
    operating-system call made on its behalf. *)
Definition is_platform_call (c : Call) : bool :=
  match c with
  | Enter_set_process_affinity _ _
  | Call_OpenProcess _ _
  | Call_GetLastError
  | Call_SetProcessAffinityMask _ _
  | Call_CloseHandle _
  | Call_sched_setaffinity _ _ _
  | Call_strerror _ => true
  | Call_stol _ | Call_stoi _ | Call_GetSystemInfo | Call_sysconf => false
  end.

Definition no_platform_call (w : World) : Prop :=
  forallb (fun c => negb (is_platform_call c)) (calls w) = true.

(** The native process-identifier type holds [p]: [unsigned long] on the
    handle-based platform, [pid_t] on the POSIX-like one, [long] otherwise. *)
Definition pid_representable (t : Target) (p : Z) : Prop :=
  match os_of t with
  | Windows => in_unsigned (long_bits t) p
  | Linux => in_signed int_bits p
  | OtherOS => in_signed (long_bits t) p
  end.

(** An integer literal in the everyday sense: an optional sign followed by
    one or more decimal digits and nothing else; its value. *)
Fixpoint all_digits (s : string) : bool :=
  match s with
  | EmptyString => true
  | String c s' => isdigit c && all_digits s'
  end.

Fixpoint digits_value (acc : Z) (s : string) : Z :=
  match s with
  | EmptyString => acc
  | String c s' => digits_value (10 * acc + digit_value c) s'
  end.

Definition unsigned_literal (s : string) : option Z :=
  match s with
  | EmptyString => None
  | String _ _ => if all_digits s then Some (digits_value 0 s) else None
  end.

Definition integer_literal (s : string) : option Z :=
  match s with
  | String "-" s' => option_map Z.opp (unsigned_literal s')
  | String "+" s' => unsigned_literal s'
  | _ => unsigned_literal s
  end.

Definition is_integer (s : string) : bool :=
  match integer_literal s with Some _ => true | None => false end.

(** The literal's value lies outside a signed type of [w] bits. *)
Definition exceeds (w : Z) (s : string) : Prop :=
  exists v, integer_literal s = Some v /\ ~ in_signed w v.

(** The set whose only member is [cpu]: bit [i] is set exactly when
    [i = cpu]. *)
Definition single_bit (mask cpu : Z) : Prop :=
  forall i, Z.testbit mask i = (i =? cpu).

(** Number of [CloseHandle h] in a log. *)
Fixpoint count_close (h : Z) (cs : list Call) : nat :=
  match cs with
  | [] => O
  | Call_CloseHandle h' :: cs' =>
      if h' =? h then S (count_close h cs') else count_close h cs'
  | _ :: cs' => count_close h cs'
  end.

(** ** Sample hosts *)

(** A host on which every call succeeds. *)
Definition willing_host (t : Target) (n : Z) : Host :=
  {| target := t;
     os_processors := n;
     os_OpenProcess := fun _ _ => 4660;
     os_OpenProcess_error := fun _ _ => 0;
     os_SetProcessAffinityMask := fun _ _ => None;
     os_sched_setaffinity := fun _ _ _ => None;
     os_strerror := fun _ => "Success" |}.

(** A host that knows no process: [OpenProcess] fails with
    [ERROR_INVALID_PARAMETER], [sched_setaffinity] with [ESRCH]. *)
Definition empty_host (t : Target) (n : Z) : Host :=
  {| target := t;
     os_processors := n;
     os_OpenProcess := fun _ _ => 0;
     os_OpenProcess_error := fun _ _ => 87;
     os_SetProcessAffinityMask := fun _ _ => Some 6;
     os_sched_setaffinity := fun _ _ _ => Some 3;
     os_strerror := fun e => if e =? 3 then "No such process"
                             else "Unknown error" |}.

(** A host that opens every process and refuses every mask with
    [ERROR_ACCESS_DENIED], or every set with [EPERM]. *)
Definition refusing_host (t : Target) (n : Z) : Host :=
  {| target := t;
     os_processors := n;
     os_OpenProcess := fun _ _ => 4660;
     os_OpenProcess_error := fun _ _ => 0;
     os_SetProcessAffinityMask := fun _ _ => Some 5;
     os_sched_setaffinity := fun _ _ _ => Some 1;
     os_strerror := fun e => if e =? 1 then "Operation not permitted"
                             else "Unknown error" |}.

(** The call [get_hardware_concurrency] makes on the host. *)
Definition core_query (host : Host) : Call :=
  match os_of (target host) with
  | Windows => Call_GetSystemInfo
  | _ => Call_sysconf
  end.

(** The first failure of the parse block: [stol] on the first argument is
    evaluated before [stoi] on the second. *)
Definition parse_failure (t : Target) (arg1 arg2 : string)
  : option ParseError :=
  match stol t arg1 with
  | Failed e => Some e
  | Value _ =>
      match stoi t arg2 with
      | Failed e => Some e
      | Value _ => None
      end
  end.

Definition parse_error_text (e : ParseError) : string :=
  match e with
  | InvalidArgument => invalid_argument_text
  | OutOfRange => out_of_range_text
  end.

(** The calls of a parse block that failed with [e]. *)
Definition parse_calls (t : Target) (arg1 arg2 : string) : list Call :=
  match stol t arg1 with
  | Failed _ => [Call_stol arg1]
  | Value _ => [Call_stol arg1; Call_stoi arg2]
  end.

(** The world in which [main] calls [set_process_affinity]. *)
Definition world_at_call (host : Host) (arg1 arg2 : string) : World :=
  {| cout := ""; cerr := ""; last_error := 0; errno := 0; handles := [];
     calls := [Call_stol arg1; Call_stoi arg2; core_query host] |}.

(** The affinity request was granted by the operating system: the log has
    a [sched_setaffinity] or a [SetProcessAffinityMask] that succeeded. *)
Definition granted (host : Host) (c : Call) : bool :=
  match c with
  | Call_sched_setaffinity pid size set =>
      match os_sched_setaffinity host pid size set with
      | None => true
      | Some _ => false
      end
  | Call_SetProcessAffinityMask h mask =>
      match os_SetProcessAffinityMask host h mask with
      | None => true
      | Some _ => false
      end
  | _ => false
  end.

Definition affinity_applied (host : Host) (w : World) : bool :=
  existsb (granted host) (calls w).

(** The test [main] makes after the core-count query. *)
Definition core_rejected (host : Host) (core_id : Z) : bool :=
  (0 <? hardware_concurrency host)
  && ((core_id <? 0)
      || (hardware_concurrency host <=? to_unsigned int_bits core_id)).

(** What [main] makes of the outcome of [set_process_affinity]: the second
    [try] block and its handler. *)
Definition report (r : Outcome unit * World) : Outcome Z * World :=
  match r with
  | (Returns _, w) => (Returns 0, w)
  | (Throws (runtime_error what), w) =>
      (Returns 1,
       {| cout := cout w; cerr := cerr w ++ platform_error_text what;
          last_error := last_error w; errno := errno w;
          handles := handles w; calls := calls w |})
  | (Throws e, w) => (Throws e, w)
  | (Undefined, w) => (Undefined, w)
  end.

(** A world after more output, with new last-error, [errno] and handle
    table, and more calls. *)
Definition extend (w : World) (out : string) (le en : Z) (hs : list Z)
    (cs : list Call) : World :=
  {| cout := cout w ++ out; cerr := cerr w; last_error := le; errno := en;
     handles := hs; calls := (calls w ++ cs)%list |}.

Definition process_access : Z :=
  Z.lor PROCESS_SET_INFORMATION PROCESS_QUERY_INFORMATION.

(** The mask [set_process_affinity] builds on the handle-based platform
    when the shift is defined. *)
Definition affinity_mask (t : Target) (core_id : Z) : Z :=
  to_unsigned (ptr_bits t) (to_unsigned 64 (Z.shiftl 1 core_id)).

Definition success_text (pid core_id : Z) : string :=
  "Successfully set affinity for PID " ++ to_string pid
  ++ " to core " ++ to_string core_id ++ endl.

Definition cannot_open_text (pid code : Z) : string :=
  "Could not open process with PID " ++ to_string pid
  ++ ". Error code: " ++ to_string code.

Definition cannot_set_text (code : Z) : string :=
  "Failed to set process affinity mask. Error code: " ++ to_string code.

Definition syscall_failed_text (diagnostic : string) : string :=
  "sched_setaffinity failed: " ++ diagnostic.

Definition unsupported_text : string := "Unsupported operating system.".

(** The four ways a run of [main] can go. *)
Inductive RunShape (host : Host) (prog_name : string) (args : list string)
  : Prop :=
| Shape_usage :
    List.length args <> 2%nat ->
    run host prog_name args =
      (Returns 1,
       {| cout := ""; cerr := usage_text prog_name; last_error := 0;
          errno := 0; handles := []; calls := [] |}) ->
    RunShape host prog_name args
| Shape_parse_failure (arg1 arg2 : string) (e : ParseError) :
    args = [arg1; arg2] ->
    parse_failure (target host) arg1 arg2 = Some e ->
    run host prog_name args =
      (Returns 1,
       {| cout := ""; cerr := parse_error_text e ++ usage_text prog_name;
          last_error := 0; errno := 0; handles := [];
          calls := parse_calls (target host) arg1 arg2 |}) ->
    RunShape host prog_name args
| Shape_core_rejected (arg1 arg2 : string) (pid core_id : Z) :
    args = [arg1; arg2] ->
    stol (target host) arg1 = Value pid ->
    stoi (target host) arg2 = Value core_id ->
    core_rejected host core_id = true ->
    run host prog_name args =
      (Returns 1,
       {| cout := "";
          cerr := core_range_text core_id (hardware_concurrency host);
          last_error := 0; errno := 0; handles := [];
          calls := [Call_stol arg1; Call_stoi arg2; core_query host] |}) ->
    RunShape host prog_name args
| Shape_affinity (arg1 arg2 : string) (pid core_id : Z) :
    args = [arg1; arg2] ->
    stol (target host) arg1 = Value pid ->
    stoi (target host) arg2 = Value core_id ->
    core_rejected host core_id = false ->
    run host prog_name args =
      report (set_process_affinity host pid core_id
                (world_at_call host arg1 arg2)) ->
    RunShape host prog_name args.

(** The text of a platform error carries the diagnostic of the operating
    system.  For a failed [OpenProcess] it names the identifier and the
    last-error code of that call, for a rejected mask the last-error code
    [SetProcessAffinityMask] left, each as the decimal text [to_string]
    gives, which is an integer literal denoting the number; for a failed
    [sched_setaffinity] it ends with the text [strerror] has for the
    [errno] of that call. *)
Definition platform_diagnostic (host : Host) (pid core_id : Z)
    (what : string) : Prop :=
  match os_of (target host) with
  | Windows =>
      let h := os_OpenProcess host process_access pid in
      (h = 0
       /\ exists pid_text code_text,
            what = "Could not open process with PID " ++ pid_text
                   ++ ". Error code: " ++ code_text
            /\ pid_text = to_string pid
            /\ integer_literal pid_text = Some pid
            /\ code_text
               = to_string (os_OpenProcess_error host process_access pid)
            /\ integer_literal code_text
               = Some (os_OpenProcess_error host process_access pid))
      \/ (h <> 0
          /\ exists code code_text,
               os_SetProcessAffinityMask host h
                 (affinity_mask (target host) core_id) = Some code
               /\ what = "Failed to set process affinity mask. Error code: "
                         ++ code_text
               /\ code_text = to_string code
               /\ integer_literal code_text = Some code)
  | Linux =>
      exists e,
        os_sched_setaffinity host pid sizeof_cpu_set_t
          (CPU_SET host core_id CPU_ZERO) = Some e
        /\ what = "sched_setaffinity failed: " ++ os_strerror host e
  | OtherOS => what = "Unsupported operating system."
  end.

(** The line each supported body of [set_process_affinity] prints first;
    the fallback body prints nothing. *)
Definition banner (o : OS) : string :=
  match o with
  | Windows => "Running on Windows." ++ endl
  | Linux => "Running on Linux." ++ endl
  | OtherOS => ""
  end.

(** The calls that ask the operating system to change an affinity. *)
Definition is_affinity_request (c : Call) : bool :=
  match c with
  | Call_sched_setaffinity _ _ _ | Call_SetProcessAffinityMask _ _ => true
  | _ => false
  end.

Definition is_open_process (c : Call) : bool :=
  match c with
  | Call_OpenProcess _ _ => true
  | _ => false
  end.

Definition is_close_handle (c : Call) : bool :=
  match c with
  | Call_CloseHandle _ => true
  | _ => false
  end.

(** Number of calls of a kind in a log. *)
Definition count_calls (kind : Call -> bool) (cs : list Call) : nat :=
  List.length (filter kind cs).

(** * Properties *)

(** ** Strings and integers *)

Lemma append_assoc (a b c : string) : (a ++ b) ++ c = a ++ (b ++ c).
Proof.
  induction a as [|x a IH]; simpl; [reflexivity | now rewrite IH].
Qed.

Lemma append_nil_r (a : string) : a ++ "" = a.
Proof.
  induction a as [|x a IH]; simpl; [reflexivity | now rewrite IH].
Qed.

Lemma ptr_bits_cases (t : Target) : ptr_bits t = 32 \/ ptr_bits t = 64.
Proof. destruct t; simpl; auto. Qed.

Lemma in_signedb_spec (w x : Z) : in_signedb w x = true <-> in_signed w x.
Proof.
  unfold in_signedb, in_signed. rewrite andb_true_iff, !Z.leb_le. tauto.
Qed.

Lemma to_signed_id (w x : Z) : 0 < w -> in_signed w x -> to_signed w x = x.
Proof.
  unfold in_signed, signed_min, signed_max, to_signed. intros Hw Hx.
  assert (E : 2 ^ w = 2 * 2 ^ (w - 1)).
  { replace w with (Z.succ (w - 1)) at 1 by lia. apply Z.pow_succ_r. lia. }
  rewrite Z.mod_small; lia.
Qed.

Lemma to_unsigned_id (w x : Z) : in_unsigned w x -> to_unsigned w x = x.
Proof.
  unfold in_unsigned, unsigned_max, to_unsigned. intros Hx.
  apply Z.mod_small. lia.
Qed.

Lemma to_unsigned_range (w x : Z) : 0 <= w -> 0 <= to_unsigned w x < 2 ^ w.
Proof.
  intros Hw. unfold to_unsigned. apply Z.mod_pos_bound.
  apply Z.pow_pos_nonneg; lia.
Qed.

Lemma sto_value (wl w : Z) (s : string) (v : Z) :
  sto wl w s = Value v ->
  strtol_value s = Some v /\ in_signed wl v /\ in_signed w v.
Proof.
  unfold sto. destruct (strtol_value s) as [x|]; [|discriminate].
  destruct (in_signedb wl x && in_signedb w x) eqn:E; [|discriminate].
  intros H. injection H as <-. apply andb_true_iff in E.
  rewrite !in_signedb_spec in E. tauto.
Qed.

Lemma stol_range (t : Target) (s : string) (v : Z) :
  stol t s = Value v -> in_signed (long_bits t) v.
Proof. intros H. apply sto_value in H. tauto. Qed.

Lemma stoi_range (t : Target) (s : string) (v : Z) :
  stoi t s = Value v -> in_signed int_bits v.
Proof. intros H. apply sto_value in H. tauto. Qed.

Lemma stol_cast (t : Target) (s : string) (v : Z) :
  stol t s = Value v -> to_signed (long_bits t) v = v.
Proof.
  intros H. apply to_signed_id; [destruct t; simpl; lia |].
  exact (stol_range _ _ _ H).
Qed.

Lemma hardware_concurrency_range (host : Host) :
  0 <= hardware_concurrency host < 2 ^ 32.
Proof.
  unfold hardware_concurrency.
  destruct (os_of (target host));
    try (apply (to_unsigned_range 32); lia);
    destruct (0 <? _); try (apply (to_unsigned_range 32); lia); lia.
Qed.

(** ** Running the monad *)

Ltac run_step :=
  cbv beta iota zeta
      delta [run main bind ret throw undefined try_catch log cout_put cerr_put
             set_last_error set_errno set_handles get call_stol call_stoi
             get_hardware_concurrency initial_world
             cout cerr last_error errno handles calls].

Lemma print_usage_run (prog_name : string) (w : World) :
  print_usage prog_name w =
  (Returns tt,
   {| cout := cout w; cerr := cerr w ++ usage_text prog_name;
      last_error := last_error w; errno := errno w; handles := handles w;
      calls := calls w |}).
Proof.
  destruct w as [o e le en hs cs]. unfold print_usage. run_step.
  unfold usage_text.
  now rewrite !append_assoc.
Qed.

(** ** Wrong number of arguments *)

Lemma main_usage (host : Host) (prog_name : string) (args : list string) :
  List.length args <> 2%nat ->
  main host prog_name args = (print_usage prog_name ;; ret 1).
Proof.
  intros Hlen.
  destruct args as [|a [|b [|c l]]]; simpl in Hlen; try reflexivity.
  congruence.
Qed.

Lemma usage_run (host : Host) (prog_name : string) (args : list string) :
  List.length args <> 2%nat ->
  run host prog_name args =
  (Returns 1,
   {| cout := ""; cerr := usage_text prog_name; last_error := 0; errno := 0;
      handles := []; calls := [] |}).
Proof.
  intros Hlen. unfold run. rewrite (main_usage _ _ _ Hlen).
  unfold bind. rewrite print_usage_run. reflexivity.
Qed.

(** C6: with an argument count other than two the program writes the usage
    text to the error stream and exits with code 1; nothing is written to
    the standard output and no call is logged: no parsing, no core-count
    query, no platform call. *)
Theorem wrong_argument_count (host : Host) (prog_name : string)
    (args : list string) :
  List.length args <> 2%nat ->
  run host prog_name args =
  (Returns 1,
   {| cout := ""; cerr := usage_text prog_name; last_error := 0; errno := 0;
      handles := []; calls := [] |}).
Proof.
  intros Hlen. unfold run.
  assert (Hmain : main host prog_name args
                  = (print_usage prog_name ;; ret 1))
    by exact (main_usage host prog_name args Hlen).
  rewrite Hmain. unfold bind.
  rewrite (print_usage_run prog_name initial_world).
  cbn [cout cerr last_error errno handles calls initial_world].
  reflexivity.
Qed.

Lemma wrong_argument_count_witness :
  run (willing_host Linux64 8) "affinity" ["12345"] =
  (Returns 1,
   {| cout := ""; cerr := usage_text "affinity"; last_error := 0; errno := 0;
      handles := []; calls := [] |}).
Proof.
  apply (wrong_argument_count (willing_host Linux64 8) "affinity" ["12345"]).
  simpl. lia.
Defined.

(** ** Arguments that do not parse *)

Lemma parse_failure_run (host : Host) (prog_name arg1 arg2 : string)
    (e : ParseError) :
  parse_failure (target host) arg1 arg2 = Some e ->
  run host prog_name [arg1; arg2] =
  (Returns 1,
   {| cout := ""; cerr := parse_error_text e ++ usage_text prog_name;
      last_error := 0; errno := 0; handles := [];
      calls := parse_calls (target host) arg1 arg2 |}).
Proof.
  unfold parse_failure, parse_calls. intros H. run_step.
  destruct (stol (target host) arg1) as [p|e1].
  - destruct (stoi (target host) arg2) as [c|e2]; [discriminate|].
    injection H as <-.
    destruct e2; run_step; rewrite print_usage_run; run_step; reflexivity.
  - injection H as <-.
    destruct e1; run_step; rewrite print_usage_run; run_step; reflexivity.
Qed.

Lemma parse_calls_not_platform (t : Target) (arg1 arg2 : string) :
  forallb (fun c => negb (is_platform_call c)) (parse_calls t arg1 arg2)
  = true.
Proof. unfold parse_calls. destruct (stol t arg1); reflexivity. Qed.

(** C10: when the parse block fails, on non-integer text or on an
    out-of-range literal, the error stream holds the specific error message
    followed by the full usage text, and the exit code is 1. *)
Theorem parse_failure_prints_usage (host : Host)
    (prog_name arg1 arg2 : string) (e : ParseError) :
  parse_failure (target host) arg1 arg2 = Some e ->
  fst (run host prog_name [arg1; arg2]) = Returns 1 /\
  cerr (snd (run host prog_name [arg1; arg2])) =
    parse_error_text e ++ usage_text prog_name.
Proof.
  intros H. rewrite (parse_failure_run _ _ _ _ _ H). split; reflexivity.
Qed.

Lemma parse_failure_prints_usage_witness :
  fst (run (willing_host Win64 4) "affinity" ["12"; "99999999999"])
  = Returns 1 /\
  cerr (snd (run (willing_host Win64 4) "affinity" ["12"; "99999999999"])) =
    parse_error_text OutOfRange ++ usage_text "affinity".
Proof.
  apply (parse_failure_prints_usage (willing_host Win64 4) "affinity"
           "12" "99999999999" OutOfRange).
  reflexivity.
Defined.

(** ** After a successful parse *)

Lemma main_parsed (host : Host) (prog_name arg1 arg2 : string)
    (pid core_id : Z) :
  stol (target host) arg1 = Value pid ->
  stoi (target host) arg2 = Value core_id ->
  run host prog_name [arg1; arg2] =
  if core_rejected host core_id then
    (Returns 1,
     {| cout := "";
        cerr := core_range_text core_id (hardware_concurrency host);
        last_error := 0; errno := 0; handles := [];
        calls := [Call_stol arg1; Call_stoi arg2; core_query host] |})
  else
    report (set_process_affinity host pid core_id
              (world_at_call host arg1 arg2)).
Proof.
  intros Hp Hc. run_step. rewrite Hp. run_step. rewrite Hc. run_step.
  rewrite (stol_cast _ _ _ Hp).
  assert (Hq : forall w : World,
             match os_of (target host) with
             | Windows => log Call_GetSystemInfo
             | _ => log Call_sysconf
             end w = log (core_query host) w).
  { intros w. unfold core_query. destruct (os_of (target host)); reflexivity. }
  rewrite Hq. run_step. fold (core_rejected host core_id).
  destruct (core_rejected host core_id) eqn:Hrej.
  - run_step. unfold core_range_text. simpl.
    assert (Hn : to_unsigned int_bits (hardware_concurrency host - 1)
                 = hardware_concurrency host - 1).
    { apply to_unsigned_id. unfold in_unsigned, unsigned_max, int_bits.
      pose proof (hardware_concurrency_range host) as Hr.
      unfold core_rejected in Hrej. apply andb_true_iff in Hrej.
      destruct Hrej as [Hpos _]. apply Z.ltb_lt in Hpos. lia. }
    rewrite Hn. reflexivity.
  - unfold world_at_call, report.
    destruct (set_process_affinity host pid core_id _) as [[u|e|] w'];
      run_step; try reflexivity.
    destruct e; run_step; try reflexivity.
    unfold platform_error_text. now rewrite !append_assoc.
Qed.

(** The source's test rejects exactly the indices outside [[0, N)] once the
    count [N] is known. *)
Lemma core_rejected_spec (host : Host) (core_id : Z) :
  in_signed int_bits core_id ->
  core_rejected host core_id = true <->
  0 < hardware_concurrency host /\
  (core_id < 0 \/ hardware_concurrency host <= core_id).
Proof.
  intros Hc. unfold core_rejected.
  rewrite andb_true_iff, orb_true_iff, Z.ltb_lt, Z.ltb_lt, Z.leb_le.
  unfold in_signed, signed_min, signed_max, int_bits in Hc. simpl in Hc.
  pose proof (hardware_concurrency_range host) as Hr.
  destruct (Z.lt_ge_cases core_id 0) as [Hneg|Hpos].
  - intuition lia.
  - rewrite to_unsigned_id
      by (unfold in_unsigned, unsigned_max, int_bits; simpl; lia).
    intuition lia.
Qed.

(** ** The three bodies of [set_process_affinity] *)

Ltac affinity_step :=
  cbv beta iota zeta
      delta [set_process_affinity set_process_affinity_windows
             set_process_affinity_linux set_process_affinity_other
             OpenProcess GetLastError SetProcessAffinityMask CloseHandle
             sched_setaffinity strerror shl_ull];
  run_step.

Lemma other_run (host : Host) (pid_long core_id : Z) (w : World) :
  os_of (target host) = OtherOS ->
  set_process_affinity host pid_long core_id w =
  (Throws (runtime_error unsupported_text),
   extend w "" (last_error w) (errno w) (handles w)
     [Enter_set_process_affinity (to_pid host pid_long) core_id]).
Proof.
  intros Hos. destruct w as [o e le en hs cs]. affinity_step. rewrite Hos.
  affinity_step. unfold extend. simpl. now rewrite append_nil_r.
Qed.

Lemma linux_run (host : Host) (pid_long core_id : Z) (w : World) :
  os_of (target host) = Linux ->
  let pid := to_pid host pid_long in
  let set := CPU_SET host core_id CPU_ZERO in
  set_process_affinity host pid_long core_id w =
  match os_sched_setaffinity host pid sizeof_cpu_set_t set with
  | None =>
      (Returns tt,
       extend w ("Running on Linux." ++ endl ++ success_text pid core_id)
         (last_error w) (errno w) (handles w)
         [Enter_set_process_affinity pid core_id;
          Call_sched_setaffinity pid sizeof_cpu_set_t set])
  | Some e =>
      (Throws (runtime_error (syscall_failed_text (os_strerror host e))),
       extend w ("Running on Linux." ++ endl) (last_error w) e (handles w)
         [Enter_set_process_affinity pid core_id;
          Call_sched_setaffinity pid sizeof_cpu_set_t set;
          Call_strerror e])
  end.
Proof.
  intros Hos pid set. destruct w as [o e le en hs cs]. affinity_step.
  rewrite Hos. affinity_step. fold pid set.
  destruct (os_sched_setaffinity host pid sizeof_cpu_set_t set) as [e'|];
    affinity_step; unfold extend, success_text, syscall_failed_text; simpl;
    rewrite <- ?app_assoc, ?append_assoc; reflexivity.
Qed.

Lemma windows_run (host : Host) (pid_long core_id : Z) (w : World) :
  os_of (target host) = Windows ->
  let pid := to_pid host pid_long in
  let h := os_OpenProcess host process_access pid in
  let mask := affinity_mask (target host) core_id in
  let entry := [Enter_set_process_affinity pid core_id;
                Call_OpenProcess process_access pid] in
  set_process_affinity host pid_long core_id w =
  if h =? 0 then
    let code := os_OpenProcess_error host process_access pid in
    (Throws (runtime_error (cannot_open_text pid code)),
     extend w ("Running on Windows." ++ endl) code (errno w) (handles w)
       (entry ++ [Call_GetLastError]))
  else if (0 <=? core_id) && (core_id <? 64) then
    match os_SetProcessAffinityMask host h mask with
    | None =>
        (Returns tt,
         extend w ("Running on Windows." ++ endl ++ success_text pid core_id)
           (last_error w) (errno w) (handles w)
           (entry ++ [Call_SetProcessAffinityMask h mask;
                      Call_CloseHandle h]))
    | Some code =>
        (Throws (runtime_error (cannot_set_text code)),
         extend w ("Running on Windows." ++ endl) code (errno w) (handles w)
           (entry ++ [Call_SetProcessAffinityMask h mask;
                      Call_CloseHandle h; Call_GetLastError]))
    end
  else
    (Undefined,
     extend w ("Running on Windows." ++ endl) (last_error w) (errno w)
       (h :: handles w) entry).
Proof.
  intros Hos pid h mask entry. destruct w as [o e le en hs cs].
  affinity_step. rewrite Hos. affinity_step.
  fold process_access. fold pid. fold h.
  destruct (h =? 0) eqn:Hh.
  - affinity_step. change (0 =? 0) with true. affinity_step.
    unfold extend, cannot_open_text, entry; simpl.
    rewrite <- ?app_assoc. reflexivity.
  - affinity_step. rewrite Hh. affinity_step.
    destruct ((0 <=? core_id) && (core_id <? 64)) eqn:Hc.
    + affinity_step. fold (affinity_mask (target host) core_id). fold mask.
      destruct (os_SetProcessAffinityMask host h mask) as [code|];
        affinity_step; simpl; rewrite Z.eqb_refl; simpl;
        unfold extend, success_text, cannot_set_text, entry; simpl;
        rewrite <- ?app_assoc, ?append_assoc; reflexivity.
    + affinity_step. unfold extend, entry; simpl.
      rewrite <- ?app_assoc. reflexivity.
Qed.

Lemma report_calls (r : Outcome unit * World) :
  calls (snd (report r)) = calls (snd r).
Proof. destruct r as [[u|[| |what]|] w]; reflexivity. Qed.

(** The log of a call of [set_process_affinity]: the entry first, then, on
    the two supported platforms, the first operating-system call. *)
Lemma affinity_calls (host : Host) (pid_long core_id : Z) (w : World) :
  exists rest,
    calls (snd (set_process_affinity host pid_long core_id w)) =
      (calls w
       ++ Enter_set_process_affinity (to_pid host pid_long) core_id
          :: rest)%list
    /\ match os_of (target host) with
       | Windows =>
           exists rest',
             rest = Call_OpenProcess process_access (to_pid host pid_long)
                    :: rest'
       | Linux =>
           exists rest',
             rest = Call_sched_setaffinity (to_pid host pid_long)
                      sizeof_cpu_set_t (CPU_SET host core_id CPU_ZERO)
                    :: rest'
       | OtherOS => rest = []
       end.
Proof.
  destruct (os_of (target host)) eqn:Hos.
  - rewrite (windows_run host pid_long core_id w Hos). cbv zeta.
    destruct (_ =? 0); [|destruct (_ && _);
                          [destruct (os_SetProcessAffinityMask _ _ _)|]];
      simpl; eexists; (split; [reflexivity | eexists; reflexivity]).
  - rewrite (linux_run host pid_long core_id w Hos). cbv zeta.
    destruct (os_sched_setaffinity _ _ _ _);
      simpl; eexists; (split; [reflexivity | eexists; reflexivity]).
  - rewrite (other_run host pid_long core_id w Hos).
    simpl; eexists; (split; reflexivity).
Qed.

(** ** Core index against the core count *)

(** C2: with a known core count [N > 0] and a parsed core index outside
    [[0, N)], the program exits with code 1, the error stream holds exactly
    the message naming the index and the range 0 to [N-1], and the log ends
    with the core-count query: no platform call.  With [N = 8] and index
    [-1] the message is "Core ID -1 is out of range ... 0 to 7.". *)
Theorem core_out_of_range (host : Host) (prog_name arg1 arg2 : string)
    (pid core_id : Z) :
  stol (target host) arg1 = Value pid ->
  stoi (target host) arg2 = Value core_id ->
  0 < hardware_concurrency host ->
  core_id < 0 \/ hardware_concurrency host <= core_id ->
  run host prog_name [arg1; arg2] =
    (Returns 1,
     {| cout := "";
        cerr := core_range_text core_id (hardware_concurrency host);
        last_error := 0; errno := 0; handles := [];
        calls := [Call_stol arg1; Call_stoi arg2; core_query host] |})
  /\ no_platform_call (snd (run host prog_name [arg1; arg2]))
  /\ (hardware_concurrency host = 8 -> core_id = -1 ->
      cerr (snd (run host prog_name [arg1; arg2])) =
        "Error: Core ID -1 is out of range. Available cores on this system: 0 to 7."
        ++ endl).
Proof.
  intros Hp Hc Hn Hout.
  assert (Hrun := main_parsed host prog_name arg1 arg2 pid core_id Hp Hc).
  assert (Hrej : core_rejected host core_id = true).
  { apply core_rejected_spec; [exact (stoi_range _ _ _ Hc) | tauto]. }
  rewrite Hrej in Hrun. rewrite Hrun. split; [reflexivity | split].
  - unfold no_platform_call, core_query. simpl.
    destruct (os_of (target host)); reflexivity.
  - intros H8 Hm. simpl. rewrite H8, Hm. reflexivity.
Qed.

Lemma core_out_of_range_witness :
  run (willing_host Linux64 8) "affinity" ["123"; "-1"] =
    (Returns 1,
     {| cout := "";
        cerr := core_range_text (-1)
                  (hardware_concurrency (willing_host Linux64 8));
        last_error := 0; errno := 0; handles := [];
        calls := [Call_stol "123"; Call_stoi "-1";
                  core_query (willing_host Linux64 8)] |})
  /\ no_platform_call
       (snd (run (willing_host Linux64 8) "affinity" ["123"; "-1"]))
  /\ (hardware_concurrency (willing_host Linux64 8) = 8 -> -1 = -1 ->
      cerr (snd (run (willing_host Linux64 8) "affinity" ["123"; "-1"])) =
        "Error: Core ID -1 is out of range. Available cores on this system: 0 to 7."
        ++ endl).
Proof.
  apply (core_out_of_range (willing_host Linux64 8) "affinity" "123" "-1"
           123 (-1)).
  - reflexivity.
  - reflexivity.
  - vm_compute. reflexivity.
  - left. lia.
Defined.

(** C3: when the core count is the sentinel 0 the range test is not
    applied, whatever the core index, negative ones included: the run is the
    call of [set_process_affinity] with the parsed values and what [main]
    reports of it, and the log continues after the core-count query with
    the entry into [set_process_affinity] and, on the two supported
    platforms, the first operating-system call. *)
Theorem unknown_core_count_skips_check (host : Host)
    (prog_name arg1 arg2 : string) (pid core_id : Z) :
  stol (target host) arg1 = Value pid ->
  stoi (target host) arg2 = Value core_id ->
  hardware_concurrency host = 0 ->
  run host prog_name [arg1; arg2] =
    report (set_process_affinity host pid core_id
              (world_at_call host arg1 arg2))
  /\ exists rest,
       calls (snd (run host prog_name [arg1; arg2])) =
         (Call_stol arg1 :: Call_stoi arg2 :: core_query host
          :: Enter_set_process_affinity (to_pid host pid) core_id :: rest)
       /\ match os_of (target host) with
          | Windows =>
              exists rest',
                rest = Call_OpenProcess process_access (to_pid host pid)
                       :: rest'
          | Linux =>
              exists rest',
                rest = Call_sched_setaffinity (to_pid host pid)
                         sizeof_cpu_set_t (CPU_SET host core_id CPU_ZERO)
                       :: rest'
          | OtherOS => rest = []
          end.
Proof.
  intros Hp Hc Hn.
  assert (Hrun := main_parsed host prog_name arg1 arg2 pid core_id Hp Hc).
  assert (Hrej : core_rejected host core_id = false).
  { unfold core_rejected. rewrite Hn. reflexivity. }
  rewrite Hrej in Hrun. rewrite Hrun. split; [reflexivity|].
  rewrite report_calls.
  destruct (affinity_calls host pid core_id (world_at_call host arg1 arg2))
    as [rest [Hcalls Hfirst]].
  exists rest. split; [rewrite Hcalls; reflexivity | exact Hfirst].
Qed.

Lemma unknown_core_count_skips_check_witness :
  run (empty_host Linux64 (-1)) "affinity" ["123"; "-1"] =
    report (set_process_affinity (empty_host Linux64 (-1)) 123 (-1)
              (world_at_call (empty_host Linux64 (-1)) "123" "-1"))
  /\ exists rest,
       calls (snd (run (empty_host Linux64 (-1)) "affinity" ["123"; "-1"])) =
         (Call_stol "123" :: Call_stoi "-1"
          :: core_query (empty_host Linux64 (-1))
          :: Enter_set_process_affinity
               (to_pid (empty_host Linux64 (-1)) 123) (-1) :: rest)
       /\ exists rest',
            rest = Call_sched_setaffinity
                     (to_pid (empty_host Linux64 (-1)) 123)
                     sizeof_cpu_set_t
                     (CPU_SET (empty_host Linux64 (-1)) (-1) CPU_ZERO)
                   :: rest'.
Proof.
  apply (unknown_core_count_skips_check (empty_host Linux64 (-1)) "affinity"
           "123" "-1" 123 (-1)); reflexivity.
Defined.

(** ** The shape of a run *)

Lemma run_shape (host : Host) (prog_name : string) (args : list string) :
  RunShape host prog_name args.
Proof.
  destruct args as [|arg1 [|arg2 [|arg3 rest]]];
    try (apply Shape_usage; [simpl; lia | apply usage_run; simpl; lia]).
  destruct (parse_failure (target host) arg1 arg2) as [e|] eqn:Hf.
  - eapply Shape_parse_failure; eauto using parse_failure_run.
  - unfold parse_failure in Hf.
    destruct (stol (target host) arg1) as [pid|] eqn:Hp; [|discriminate].
    destruct (stoi (target host) arg2) as [core_id|] eqn:Hc; [|discriminate].
    pose proof (main_parsed host prog_name arg1 arg2 pid core_id Hp Hc) as Hr.
    destruct (core_rejected host core_id) eqn:Hrej.
    + eapply Shape_core_rejected; eauto.
    + eapply Shape_affinity; eauto.
Qed.

Lemma core_query_not_platform (host : Host) :
  is_platform_call (core_query host) = false.
Proof. unfold core_query. destruct (os_of (target host)); reflexivity. Qed.

Lemma core_query_not_enter (host : Host) (pid core_id : Z) :
  core_query host <> Enter_set_process_affinity pid core_id.
Proof. unfold core_query. destruct (os_of (target host)); discriminate. Qed.

Lemma in_parse_calls (t : Target) (arg1 arg2 : string) (x : Call) :
  In x (parse_calls t arg1 arg2) -> is_platform_call x = false.
Proof.
  unfold parse_calls. destruct (stol t arg1); simpl; intuition (subst; auto).
Qed.

(** Every platform call of a run belongs to the one call of
    [set_process_affinity] that [main] makes after both arguments parsed
    and the core index passed the range test. *)
Lemma platform_call_origin (host : Host) (prog_name : string)
    (args : list string) (x : Call) :
  In x (calls (snd (run host prog_name args))) ->
  is_platform_call x = true ->
  exists arg1 arg2 pid core_id,
    args = [arg1; arg2]
    /\ stol (target host) arg1 = Value pid
    /\ stoi (target host) arg2 = Value core_id
    /\ core_rejected host core_id = false
    /\ In x (calls (snd (set_process_affinity host pid core_id
                           (world_at_call host arg1 arg2)))).
Proof.
  intros Hin Hx.
  destruct (run_shape host prog_name args)
    as [Hlen Hr | a1 a2 e Ha Hf Hr | a1 a2 p c Ha Hp Hc Hrej Hr
        | a1 a2 p c Ha Hp Hc Hrej Hr]; rewrite Hr in Hin.
  - contradiction.
  - simpl in Hin. apply in_parse_calls in Hin. congruence.
  - simpl in Hin. pose proof (core_query_not_platform host).
    destruct Hin as [<-|[<-|[<-|[]]]]; simpl in Hx; congruence.
  - rewrite report_calls in Hin. exists a1, a2, p, c. auto.
Qed.

(** The calls of [set_process_affinity], one by one. *)
Lemma affinity_call_inv (host : Host) (pid_long core_id : Z) (w : World)
    (x : Call) :
  In x (calls (snd (set_process_affinity host pid_long core_id w))) ->
  In x (calls w)
  \/ x = Enter_set_process_affinity (to_pid host pid_long) core_id
  \/ (os_of (target host) = Windows
      /\ (x = Call_OpenProcess process_access (to_pid host pid_long)
          \/ x = Call_GetLastError
          \/ x = Call_CloseHandle
                   (os_OpenProcess host process_access
                      (to_pid host pid_long))
          \/ (x = Call_SetProcessAffinityMask
                    (os_OpenProcess host process_access
                       (to_pid host pid_long))
                    (affinity_mask (target host) core_id)
              /\ 0 <= core_id < 64)))
  \/ (os_of (target host) = Linux
      /\ (x = Call_sched_setaffinity (to_pid host pid_long)
                sizeof_cpu_set_t (CPU_SET host core_id CPU_ZERO)
          \/ exists e, x = Call_strerror e)).
Proof.
  destruct (os_of (target host)) eqn:Hos.
  - rewrite (windows_run host pid_long core_id w Hos). cbv zeta.
    destruct (_ =? 0);
      [|destruct ((0 <=? core_id) && (core_id <? 64)) eqn:Hc;
        [apply andb_true_iff in Hc; rewrite Z.leb_le, Z.ltb_lt in Hc;
         destruct (os_SetProcessAffinityMask _ _ _)|]];
      simpl; rewrite in_app_iff; simpl;
      intuition (subst; auto 10).
  - rewrite (linux_run host pid_long core_id w Hos). cbv zeta.
    destruct (os_sched_setaffinity _ _ _ _);
      simpl; rewrite in_app_iff; simpl; intuition (subst; eauto 10).
  - rewrite (other_run host pid_long core_id w Hos).
    simpl; rewrite in_app_iff; simpl; intuition (subst; auto).
Qed.

(** ** The process identifier handed to the platform *)

Lemma to_pid_representable (host : Host) (p : Z) :
  pid_representable (target host) p -> to_pid host p = p.
Proof.
  unfold pid_representable, to_pid.
  destruct (os_of (target host)); intros H.
  - now apply to_unsigned_id.
  - apply to_signed_id; [unfold int_bits; lia | exact H].
  - apply to_signed_id; [destruct (target host); simpl; lia | exact H].
Qed.

(** Where the native identifier type is [long] itself, or as wide as
    [long] and signed, every parsed identifier is representable. *)
Lemma parsed_pid_representable (t : Target) (s : string) (p : Z) :
  t = Linux32 \/ os_of t = OtherOS ->
  stol t s = Value p -> pid_representable t p.
Proof.
  intros Ht Hp. apply stol_range in Hp. unfold pid_representable.
  destruct Ht as [-> | Hos]; [exact Hp | now rewrite Hos].
Qed.

Lemma enter_origin (host : Host) (prog_name : string) (args : list string)
    (pid core_id : Z) :
  In (Enter_set_process_affinity pid core_id)
     (calls (snd (run host prog_name args))) ->
  exists arg1 arg2 p,
    args = [arg1; arg2]
    /\ stol (target host) arg1 = Value p
    /\ stoi (target host) arg2 = Value core_id
    /\ core_rejected host core_id = false
    /\ pid = to_pid host p.
Proof.
  intros Hin.
  destruct (platform_call_origin _ _ _ _ Hin eq_refl)
    as (a1 & a2 & p & c & Ha & Hp & Hc & Hrej & Hin').
  apply affinity_call_inv in Hin'.
  exists a1, a2, p.
  destruct Hin' as [Hw | [He | [[_ Hwin] | [_ Hlin]]]].
  - simpl in Hw. pose proof (core_query_not_enter host pid core_id).
    destruct Hw as [Hw|[Hw|[Hw|[]]]]; congruence.
  - injection He as -> ->. auto.
  - destruct Hwin as [Hx|[Hx|[Hx|[Hx _]]]]; discriminate.
  - destruct Hlin as [Hx|[e Hx]]; discriminate.
Qed.

(** The part that holds: whenever [set_process_affinity] is invoked, its
    identifier argument comes from the parsed [long] by conversion to the
    native identifier type, and where that type can represent the parsed
    value the argument is the value itself. *)
Theorem pid_argument_is_converted (host : Host) (prog_name : string)
    (args : list string) (pid core_id : Z) :
  In (Enter_set_process_affinity pid core_id)
     (calls (snd (run host prog_name args))) ->
  exists arg1 arg2 p,
    args = [arg1; arg2]
    /\ stol (target host) arg1 = Value p
    /\ pid = to_pid host p
    /\ (pid_representable (target host) p -> pid = p).
Proof.
  intros Hin.
  destruct (enter_origin _ _ _ _ _ Hin)
    as (a1 & a2 & p & Ha & Hp & _ & _ & Hpid).
  exists a1, a2, p. repeat split; auto.
  intros Hrep. rewrite Hpid. now apply to_pid_representable.
Qed.

Lemma pid_argument_is_converted_witness :
  exists arg1 arg2 p,
    ["4242"; "3"] = [arg1; arg2]
    /\ stol (target (willing_host Win64 8)) arg1 = Value p
    /\ 4242 = to_pid (willing_host Win64 8) p
    /\ (pid_representable (target (willing_host Win64 8)) p -> 4242 = p).
Proof.
  apply (pid_argument_is_converted (willing_host Win64 8) "affinity"
           ["4242"; "3"] 4242 3).
  vm_compute. tauto.
Defined.

(** C1 at the failing input: on the LP64 POSIX-like target the argument
    ["4294967297"] is an integer literal that [stol] accepts as a [long];
    [pid_t] cannot represent it; the program does not reject it, calls
    [sched_setaffinity] for process 1 and reports success for PID 1 with
    exit code 0. *)
Theorem pid_truncated_not_rejected :
  integer_literal "4294967297" = Some 4294967297
  /\ stol Linux64 "4294967297" = Value 4294967297
  /\ ~ pid_representable Linux64 4294967297
  /\ run (willing_host Linux64 8) "affinity" ["4294967297"; "0"] =
     (Returns 0,
      {| cout := "Running on Linux." ++ endl
                 ++ "Successfully set affinity for PID 1 to core 0" ++ endl;
         cerr := ""; last_error := 0; errno := 0; handles := [];
         calls := [Call_stol "4294967297"; Call_stoi "0"; Call_sysconf;
                   Enter_set_process_affinity 1 0;
                   Call_sched_setaffinity 1 128 1] |}).
Proof.
  split; [reflexivity | split; [reflexivity | split; [| reflexivity]]].
  unfold pid_representable, in_signed, signed_min, signed_max, int_bits.
  simpl. lia.
Qed.

(** The same on the handle-based target: [-1] parses as a [long] and
    reaches [OpenProcess] as [4294967295]. *)
Example pid_sign_changed :
  stol Win64 "-1" = Value (-1)
  /\ ~ pid_representable Win64 (-1)
  /\ In (Call_OpenProcess process_access 4294967295)
        (calls (snd (run (willing_host Win64 8) "affinity" ["-1"; "3"]))).
Proof.
  split; [reflexivity | split].
  - unfold pid_representable, in_unsigned. simpl. lia.
  - vm_compute. tauto.
Qed.

(** ** The affinity mask *)

Lemma single_bit_pow2 (n : Z) : 0 <= n -> single_bit (2 ^ n) n.
Proof.
  intros Hn i. rewrite Z.pow2_bits_eqb by exact Hn. apply Z.eqb_sym.
Qed.

Lemma CPU_SET_single (host : Host) (core_id : Z) :
  0 <= core_id < CPU_SETSIZE ->
  CPU_SET host core_id CPU_ZERO = 2 ^ core_id.
Proof.
  unfold CPU_SETSIZE. intros Hc. unfold CPU_SET, CPU_ZERO.
  assert (Hu : to_unsigned (ptr_bits (target host)) core_id = core_id).
  { apply to_unsigned_id. unfold in_unsigned, unsigned_max.
    destruct (ptr_bits_cases (target host)) as [-> | ->]; simpl; lia. }
  rewrite Hu.
  assert (Hlt : (core_id / 8 <? sizeof_cpu_set_t) = true).
  { apply Z.ltb_lt. unfold sizeof_cpu_set_t, CPU_SETSIZE.
    apply Z.div_lt_upper_bound; simpl; lia. }
  rewrite Hlt. simpl. rewrite Z.shiftl_1_l. reflexivity.
Qed.

Lemma affinity_mask_single (t : Target) (core_id : Z) :
  0 <= core_id < ptr_bits t -> affinity_mask t core_id = 2 ^ core_id.
Proof.
  intros Hc. unfold affinity_mask. rewrite Z.shiftl_1_l.
  assert (H64 : ptr_bits t <= 64) by (destruct t; simpl; lia).
  assert (Hlt : forall m, core_id < m -> 0 <= 2 ^ core_id <= 2 ^ m - 1).
  { intros m Hm.
    pose proof (Z.pow_lt_mono_r 2 core_id m ltac:(lia) ltac:(lia) Hm).
    pose proof (Z.pow_pos_nonneg 2 core_id ltac:(lia) ltac:(lia)). lia. }
  rewrite (to_unsigned_id 64) by (apply Hlt; lia).
  apply to_unsigned_id. apply Hlt. lia.
Qed.

(** C5, as the code has it: for a core index that reaches
    [set_process_affinity] and names a position of the mask (below
    [CPU_SETSIZE] for the affinity set, below the width of [DWORD_PTR] for
    the handle-based mask), the set or mask given to the operating system
    has exactly one bit set, at that position, and the handle-based mask is
    [2 ^ core_id]. *)
Theorem mask_has_one_bit (host : Host) (prog_name : string)
    (args : list string) (pid core_id : Z) :
  In (Enter_set_process_affinity pid core_id)
     (calls (snd (run host prog_name args))) ->
  (forall p size set,
      In (Call_sched_setaffinity p size set)
         (calls (snd (run host prog_name args))) ->
      0 <= core_id < CPU_SETSIZE ->
      single_bit set core_id)
  /\ (forall h mask,
         In (Call_SetProcessAffinityMask h mask)
            (calls (snd (run host prog_name args))) ->
         0 <= core_id < ptr_bits (target host) ->
         mask = 2 ^ core_id /\ single_bit mask core_id).
Proof.
  intros Hin.
  destruct (enter_origin _ _ _ _ _ Hin)
    as (a1 & a2 & p0 & Ha & Hp & Hc & _ & _).
  split.
  - intros p size set Hs Hrange.
    destruct (platform_call_origin _ _ _ _ Hs eq_refl)
      as (b1 & b2 & q & c & Hb & Hq & Hc' & _ & Hin').
    assert (c = core_id) by congruence. subst c.
    apply affinity_call_inv in Hin'.
    destruct Hin' as [Hw | [He | [[_ Hwin] | [_ Hlin]]]].
    + simpl in Hw. unfold core_query in Hw.
      destruct (os_of (target host));
        destruct Hw as [Hw|[Hw|[Hw|[]]]]; discriminate.
    + discriminate.
    + destruct Hwin as [Hx|[Hx|[Hx|[Hx _]]]]; discriminate.
    + destruct Hlin as [Hx|[e Hx]]; [|discriminate].
      injection Hx as _ _ ->. rewrite CPU_SET_single by exact Hrange.
      apply single_bit_pow2. lia.
  - intros h mask Hs Hrange.
    destruct (platform_call_origin _ _ _ _ Hs eq_refl)
      as (b1 & b2 & q & c & Hb & Hq & Hc' & _ & Hin').
    assert (c = core_id) by congruence. subst c.
    apply affinity_call_inv in Hin'.
    destruct Hin' as [Hw | [He | [[_ Hwin] | [_ Hlin]]]].
    + simpl in Hw. unfold core_query in Hw.
      destruct (os_of (target host));
        destruct Hw as [Hw|[Hw|[Hw|[]]]]; discriminate.
    + discriminate.
    + destruct Hwin as [Hx|[Hx|[Hx|[Hx _]]]]; try discriminate.
      injection Hx as _ ->. rewrite affinity_mask_single by exact Hrange.
      split; [reflexivity | apply single_bit_pow2; lia].
    + destruct Hlin as [Hx|[e Hx]]; discriminate.
Qed.

Lemma mask_has_one_bit_witness :
  single_bit (CPU_SET (willing_host Linux64 8) 5 CPU_ZERO) 5
  /\ affinity_mask Win64 40 = 2 ^ 40.
Proof.
  split.
  - destruct (mask_has_one_bit (willing_host Linux64 8) "affinity"
                ["123"; "5"] 123 5) as [Hset _].
    + vm_compute. tauto.
    + apply (Hset 123 sizeof_cpu_set_t).
      * vm_compute. tauto.
      * unfold CPU_SETSIZE. lia.
  - destruct (mask_has_one_bit (willing_host Win64 64) "affinity"
                ["123"; "40"] 123 40) as [_ Hmask].
    + vm_compute. tauto.
    + apply (Hmask 4660 (affinity_mask Win64 40)).
      * vm_compute. tauto.
      * simpl. lia.
Defined.

(** C5 fails as stated.  When the core count is unknown every parsed index
    reaches [set_process_affinity], negative ones included.  Index [-1] is
    no position of any mask: the affinity set goes to [sched_setaffinity]
    with no bit set. *)
Lemma empty_set_reaches_call :
  stoi Linux64 "-1" = Value (-1)
  /\ hardware_concurrency (empty_host Linux64 (-1)) = 0
  /\ calls (snd (run (empty_host Linux64 (-1)) "affinity" ["123"; "-1"])) =
     [Call_stol "123"; Call_stoi "-1"; Call_sysconf;
      Enter_set_process_affinity 123 (-1);
      Call_sched_setaffinity 123 128 0; Call_strerror 3]
  /\ ~ single_bit 0 (-1).
Proof.
  repeat split; try reflexivity.
  intros H. specialize (H (-1)). discriminate H.
Qed.

(** Whatever the mask, it has no bit at a negative position. *)
Lemma no_negative_position (mask core_id : Z) :
  core_id < 0 -> ~ single_bit mask core_id.
Proof.
  intros Hneg H. specialize (H core_id).
  rewrite Z.testbit_neg_r, Z.eqb_refl in H by exact Hneg. discriminate H.
Qed.

(** An index of [CPU_SETSIZE] or more is no position of the affinity set
    either. *)
Example index_beyond_set :
  calls (snd (run (empty_host Linux64 (-1)) "affinity" ["123"; "1024"])) =
  [Call_stol "123"; Call_stoi "1024"; Call_sysconf;
   Enter_set_process_affinity 123 1024;
   Call_sched_setaffinity 123 128 0; Call_strerror 3]
  /\ ~ single_bit 0 1024.
Proof.
  split; [reflexivity |].
  intros H. specialize (H 1024). discriminate H.
Qed.

(** On the handle-based target a negative index that reaches the call makes
    the shift undefined, and a defined shift of 32 or more leaves no bit in
    a 32-bit [DWORD_PTR]. *)
Example shift_out_of_range :
  fst (run (willing_host Win64 0) "affinity" ["123"; "-1"]) = Undefined
  /\ In (Call_SetProcessAffinityMask 4660 0)
        (calls (snd (run (willing_host Win32 0) "affinity" ["123"; "40"]))).
Proof. split; [reflexivity | vm_compute; tauto]. Qed.

(** ** The process handle *)

(** C8: on the handle-based platform, when the process handle was acquired
    and [set_process_affinity] returns or throws (the mask was applied, or
    it was rejected), the calls it made contain [CloseHandle] of that handle
    exactly once, after [OpenProcess], and the handle table is as it was
    before the call. *)
Theorem handle_released_once (host : Host) (pid_long core_id : Z)
    (w : World) :
  os_of (target host) = Windows ->
  os_OpenProcess host process_access (to_pid host pid_long) <> 0 ->
  fst (set_process_affinity host pid_long core_id w) <> Undefined ->
  let h := os_OpenProcess host process_access (to_pid host pid_long) in
  let w' := snd (set_process_affinity host pid_long core_id w) in
  exists before after,
    calls w' =
      (calls w ++ before ++ Call_CloseHandle h :: after)%list
    /\ In (Call_OpenProcess process_access (to_pid host pid_long)) before
    /\ count_close h before = 0%nat
    /\ count_close h after = 0%nat
    /\ count_close h (before ++ Call_CloseHandle h :: after) = 1%nat
    /\ handles w' = handles w
    /\ (fst (set_process_affinity host pid_long core_id w) = Returns tt
        \/ exists code,
             fst (set_process_affinity host pid_long core_id w)
             = Throws (runtime_error (cannot_set_text code))).
Proof.
  intros Hos Hh Hdef h w'. subst w'.
  rewrite (windows_run host pid_long core_id w Hos) in Hdef |- *.
  cbv zeta in Hdef |- *. fold h in Hh, Hdef |- *.
  apply Z.eqb_neq in Hh. rewrite Hh in Hdef |- *.
  destruct ((0 <=? core_id) && (core_id <? 64));
    [|exfalso; apply Hdef; reflexivity].
  set (mask := affinity_mask (target host) core_id).
  destruct (os_SetProcessAffinityMask host h mask) as [code|].
  - exists [Enter_set_process_affinity (to_pid host pid_long) core_id;
            Call_OpenProcess process_access (to_pid host pid_long);
            Call_SetProcessAffinityMask h mask], [Call_GetLastError].
    simpl. rewrite Z.eqb_refl. repeat split; eauto.
  - exists [Enter_set_process_affinity (to_pid host pid_long) core_id;
            Call_OpenProcess process_access (to_pid host pid_long);
            Call_SetProcessAffinityMask h mask], [].
    simpl. rewrite Z.eqb_refl. repeat split; auto.
Qed.

Lemma handle_released_once_witness :
  exists before after,
    calls (snd (set_process_affinity (refusing_host Win64 8) 321 2
                  initial_world)) =
      (calls initial_world ++ before
       ++ Call_CloseHandle
            (os_OpenProcess (refusing_host Win64 8) process_access
               (to_pid (refusing_host Win64 8) 321)) :: after)%list
    /\ In (Call_OpenProcess process_access
             (to_pid (refusing_host Win64 8) 321)) before
    /\ count_close 4660 before = 0%nat
    /\ count_close 4660 after = 0%nat
    /\ count_close 4660 (before ++ Call_CloseHandle 4660 :: after) = 1%nat
    /\ handles (snd (set_process_affinity (refusing_host Win64 8) 321 2
                       initial_world)) = handles initial_world
    /\ (fst (set_process_affinity (refusing_host Win64 8) 321 2
               initial_world) = Returns tt
        \/ exists code,
             fst (set_process_affinity (refusing_host Win64 8) 321 2
                    initial_world)
             = Throws (runtime_error (cannot_set_text code))).
Proof.
  apply (handle_released_once (refusing_host Win64 8) 321 2 initial_world).
  - reflexivity.
  - vm_compute. discriminate.
  - vm_compute. discriminate.
Defined.

(** ** Decimal text *)

Lemma digit_not_space_or_sign (c : ascii) (s : string) :
  isdigit c = true ->
  isspace c = false /\ read_sign (String c s) = (false, String c s).
Proof.
  destruct c as [b0 b1 b2 b3 b4 b5 b6 b7].
  destruct b0, b1, b2, b3, b4, b5, b6, b7;
    intros H; try discriminate H; split; reflexivity.
Qed.

Lemma read_printed_acc (d : Decimal.uint) (acc : positive) (n : nat) :
  read_digits (Z.pos acc) n (NilEmpty.string_of_uint d) =
  (Z.pos (Pos.of_uint_acc d acc), (n + Decimal.nb_digits d)%nat, "").
Proof.
  revert acc n.
  induction d as [|d IH|d IH|d IH|d IH|d IH|d IH|d IH|d IH|d IH|d IH];
    intros acc n;
    [simpl; now rewrite Nat.add_0_r | ..];
    cbn [NilEmpty.string_of_uint read_digits Decimal.nb_digits
         Pos.of_uint_acc];
    match goal with
    | |- context [isdigit ?c] => change (isdigit c) with true
    end;
    cbv iota;
    match goal with
    | |- context [digit_value ?c] =>
        let k := eval vm_compute in (digit_value c) in
        change (digit_value c) with k
    end;
    match goal with
    | |- read_digits ?v _ _ = (Z.pos (Pos.of_uint_acc _ ?q), _, _) =>
        replace v with (Z.pos q) by lia
    end;
    rewrite IH; now rewrite Nat.add_succ_r.
Qed.

Lemma read_printed (d : Decimal.uint) (n : nat) :
  read_digits 0 n (NilEmpty.string_of_uint d) =
  (Z.of_N (Pos.of_uint d), (n + Decimal.nb_digits d)%nat, "").
Proof.
  revert n.
  induction d as [|d IH|d IH|d IH|d IH|d IH|d IH|d IH|d IH|d IH|d IH];
    intros n;
    [simpl; now rewrite Nat.add_0_r | ..];
    cbn [NilEmpty.string_of_uint read_digits Decimal.nb_digits Pos.of_uint];
    match goal with
    | |- context [isdigit ?c] => change (isdigit c) with true
    end;
    cbv iota;
    [ change (10 * 0 + digit_value "0") with 0; rewrite IH;
      now rewrite Nat.add_succ_r
    | match goal with
      | |- read_digits ?v _ _ = _ =>
          let v' := eval vm_compute in v in change v with v'
      end;
      rewrite read_printed_acc; simpl Z.of_N;
      now rewrite Nat.add_succ_r .. ].
Qed.

Lemma printed_positive (p : positive) :
  exists c s,
    NilZero.string_of_uint (Pos.to_uint p) = String c s
    /\ isdigit c = true
    /\ exists n, read_digits 0 0 (String c s) = (Z.pos p, S n, "").
Proof.
  pose proof (read_printed (Pos.to_uint p) 0) as Hread.
  rewrite DecimalPos.Unsigned.of_to in Hread. simpl Z.of_N in Hread.
  pose proof (DecimalPos.Unsigned.to_uint_nonnil p) as Hnil.
  destruct (Pos.to_uint p) as [|d|d|d|d|d|d|d|d|d|d]; [congruence | ..];
    cbn [NilZero.string_of_uint NilEmpty.string_of_uint] in *;
    eexists; eexists; (split; [reflexivity |]);
    (split; [reflexivity |]); eexists; rewrite Hread; reflexivity.
Qed.

Lemma strtol_printed (v : Z) : strtol_value (to_string v) = Some v.
Proof.
  unfold to_string. destruct v as [|p|p]; [reflexivity | |].
  - cbn [Z.to_int NilZero.string_of_int].
    destruct (printed_positive p) as (c & s & -> & Hc & n & Hr).
    destruct (digit_not_space_or_sign c s Hc) as [Hsp Hsg].
    unfold strtol_value. cbn [skip_space]. rewrite Hsp, Hsg, Hr.
    reflexivity.
  - cbn [Z.to_int NilZero.string_of_int].
    destruct (printed_positive p) as (c & s & -> & Hc & n & Hr).
    unfold strtol_value.
    change (skip_space (String "-" (String c s))) with
      (String "-" (String c s)).
    change (read_sign (String "-" (String c s))) with (true, String c s).
    cbv beta iota. rewrite Hr. reflexivity.
Qed.

Lemma read_digits_all (s : string) (acc v : Z) (n m : nat) :
  read_digits acc n s = (v, m, "") ->
  all_digits s = true /\ digits_value acc s = v.
Proof.
  revert acc n. induction s as [|c s IH]; intros acc n H; simpl in *.
  - injection H as <- _. auto.
  - destruct (isdigit c); [|discriminate H].
    destruct (IH _ _ H) as [Hall Hval]. auto.
Qed.

Lemma digit_starts_literal (c : ascii) (s : string) :
  isdigit c = true ->
  integer_literal (String c s) = unsigned_literal (String c s).
Proof.
  destruct c as [b0 b1 b2 b3 b4 b5 b6 b7].
  destruct b0, b1, b2, b3, b4, b5, b6, b7;
    intros H; try discriminate H; reflexivity.
Qed.

(** The text [to_string] gives a number is an integer literal, an optional
    minus sign and decimal digits, that denotes the number. *)
Lemma printed_is_literal (v : Z) : integer_literal (to_string v) = Some v.
Proof.
  assert (Hpos : forall p,
             unsigned_literal (NilZero.string_of_uint (Pos.to_uint p))
             = Some (Z.pos p)
             /\ exists c s,
                  NilZero.string_of_uint (Pos.to_uint p) = String c s
                  /\ isdigit c = true).
  { intros p. destruct (printed_positive p) as (c & s & E & Hc & n & Hr).
    rewrite E. split; [|eauto].
    destruct (read_digits_all _ _ _ _ _ Hr) as [Hall Hval].
    unfold unsigned_literal. now rewrite Hall, Hval. }
  unfold to_string. destruct v as [|p|p]; [reflexivity | |];
    cbn [Z.to_int NilZero.string_of_int];
    destruct (Hpos p) as (Hu & c & s & E & Hc).
  - rewrite E in Hu |- *. now rewrite (digit_starts_literal c s Hc).
  - cbn [integer_literal]. now rewrite Hu.
Qed.

(** ** Exit code and platform errors *)

Lemma parse_calls_not_granted (host : Host) (arg1 arg2 : string) :
  existsb (granted host) (parse_calls (target host) arg1 arg2) = false.
Proof. unfold parse_calls. destruct (stol _ arg1); reflexivity. Qed.

Lemma core_query_not_granted (host : Host) :
  granted host (core_query host) = false.
Proof. unfold core_query. destruct (os_of (target host)); reflexivity. Qed.

(** What a call of [set_process_affinity] from [main] comes to: it returns
    exactly when the operating system granted the request, and everything
    it throws is a [runtime_error] with the platform's diagnostic. *)
Lemma affinity_outcome (host : Host) (arg1 arg2 : string)
    (pid_long core_id : Z) :
  let r := set_process_affinity host pid_long core_id
             (world_at_call host arg1 arg2) in
  cerr (snd r) = ""
  /\ (fst r = Returns tt <-> affinity_applied host (snd r) = true)
  /\ (forall e, fst r = Throws e ->
        exists what,
          e = runtime_error what
          /\ platform_diagnostic host (to_pid host pid_long) core_id what).
Proof.
  intros r. subst r. unfold affinity_applied, platform_diagnostic.
  pose proof (core_query_not_granted host) as Hq.
  destruct (os_of (target host)) eqn:Hos.
  - rewrite (windows_run host pid_long core_id _ Hos). cbv zeta.
    set (pid := to_pid host pid_long).
    set (h := os_OpenProcess host process_access pid).
    set (mask := affinity_mask (target host) core_id).
    destruct (h =? 0) eqn:Hh.
    + apply Z.eqb_eq in Hh. simpl. rewrite Hq. simpl.
      repeat split; try discriminate.
      intros e He. injection He as <-.
      eexists. split; [reflexivity | left; split; [exact Hh |]].
      exists (to_string pid),
        (to_string (os_OpenProcess_error host process_access pid)).
      repeat split; apply printed_is_literal.
    + destruct ((0 <=? core_id) && (core_id <? 64)).
      * destruct (os_SetProcessAffinityMask host h mask) as [code|] eqn:Hm;
          simpl; rewrite Hq, Hm; simpl; repeat split; try discriminate.
        intros e He. injection He as <-.
        eexists. split; [reflexivity | right].
        apply Z.eqb_neq in Hh. split; [exact Hh |].
        exists code, (to_string code).
        repeat split; apply printed_is_literal.
      * simpl. rewrite Hq. simpl. repeat split; discriminate.
  - rewrite (linux_run host pid_long core_id _ Hos). cbv zeta.
    set (pid := to_pid host pid_long).
    set (set := CPU_SET host core_id CPU_ZERO).
    destruct (os_sched_setaffinity host pid sizeof_cpu_set_t set)
      as [e'|] eqn:Hs;
      simpl; rewrite Hq, Hs; simpl; repeat split; try discriminate.
    intros e He. injection He as <-.
    eexists. split; [reflexivity | exists e'; split; reflexivity].
  - rewrite (other_run host pid_long core_id _ Hos). simpl. rewrite Hq.
    simpl. repeat split; try discriminate.
    intros e He. injection He as <-.
    eexists. split; reflexivity.
Qed.

(** C9: the exit code is 0 exactly when the operating system granted the
    affinity request.  Whatever [set_process_affinity] throws is a platform
    error whose text carries the platform's diagnostic (the last-error code
    of the failed call in decimal, the [strerror] text, or the
    unsupported-platform text); the program then exits with code 1 and the
    error stream holds "An error occurred: ", that text, and on the next
    line the hint to check the identifier and to run with sufficient
    privileges. *)
Theorem exit_code_and_platform_errors (host : Host) (prog_name : string)
    (args : list string) :
  (fst (run host prog_name args) = Returns 0 <->
   affinity_applied host (snd (run host prog_name args)) = true)
  /\ forall arg1 arg2 pid core_id e,
       args = [arg1; arg2] ->
       stol (target host) arg1 = Value pid ->
       stoi (target host) arg2 = Value core_id ->
       core_rejected host core_id = false ->
       fst (set_process_affinity host pid core_id
              (world_at_call host arg1 arg2)) = Throws e ->
       exists what,
         e = runtime_error what
         /\ platform_diagnostic host (to_pid host pid) core_id what
         /\ fst (run host prog_name args) = Returns 1
         /\ cerr (snd (run host prog_name args)) =
              "An error occurred: " ++ what ++ endl
              ++ "Please ensure the PID is correct and you have sufficient privileges (e.g., run with 'sudo' or as Administrator)."
              ++ endl.
Proof.
  split.
  - destruct (run_shape host prog_name args)
      as [Hlen Hr | a1 a2 e Ha Hf Hr | a1 a2 p c Ha Hp Hc Hrej Hr
          | a1 a2 p c Ha Hp Hc Hrej Hr]; rewrite Hr.
    + simpl. split; discriminate.
    + unfold affinity_applied. simpl. rewrite parse_calls_not_granted.
      split; discriminate.
    + unfold affinity_applied. simpl. rewrite core_query_not_granted.
      split; discriminate.
    + destruct (affinity_outcome host a1 a2 p c) as (_ & Hiff & Hthrow).
      unfold affinity_applied in *. rewrite report_calls.
      destruct (set_process_affinity host p c (world_at_call host a1 a2))
        as [[[]|e|] w'] eqn:Hcall; simpl in *.
      * rewrite <- Hiff. split; reflexivity.
      * destruct (Hthrow e eq_refl) as (what & -> & _). simpl.
        rewrite <- Hiff. split; discriminate.
      * rewrite <- Hiff. split; discriminate.
  - intros a1 a2 p c e -> Hp Hc Hrej He.
    destruct (affinity_outcome host a1 a2 p c) as (Herr & _ & Hthrow).
    destruct (Hthrow e He) as (what & -> & Hdiag).
    exists what. split; [reflexivity | split; [exact Hdiag |]].
    pose proof (main_parsed host prog_name a1 a2 p c Hp Hc) as Hr.
    rewrite Hrej in Hr. rewrite Hr.
    destruct (set_process_affinity host p c (world_at_call host a1 a2))
      as [o w']. simpl in He, Herr. subst o. simpl. rewrite Herr.
    split; reflexivity.
Qed.

Lemma exit_code_and_platform_errors_witness :
  (fst (run (empty_host Linux64 8) "affinity" ["99999999"; "0"]) = Returns 1
   /\ cerr (snd (run (empty_host Linux64 8) "affinity" ["99999999"; "0"])) =
        "An error occurred: sched_setaffinity failed: No such process"
        ++ endl
        ++ "Please ensure the PID is correct and you have sufficient privileges (e.g., run with 'sudo' or as Administrator)."
        ++ endl)
  /\ (fst (run (empty_host Win64 8) "affinity" ["99999999"; "0"]) = Returns 1
   /\ cerr (snd (run (empty_host Win64 8) "affinity" ["99999999"; "0"])) =
        "An error occurred: Could not open process with PID 99999999. Error code: 87"
        ++ endl
        ++ "Please ensure the PID is correct and you have sufficient privileges (e.g., run with 'sudo' or as Administrator)."
        ++ endl)
  /\ (fst (run (refusing_host Win64 8) "affinity" ["321"; "2"]) = Returns 1
   /\ cerr (snd (run (refusing_host Win64 8) "affinity" ["321"; "2"])) =
        "An error occurred: Failed to set process affinity mask. Error code: 5"
        ++ endl
        ++ "Please ensure the PID is correct and you have sufficient privileges (e.g., run with 'sudo' or as Administrator)."
        ++ endl)
  /\ (fst (run (willing_host Other64 8) "affinity" ["321"; "2"]) = Returns 1
   /\ cerr (snd (run (willing_host Other64 8) "affinity" ["321"; "2"])) =
        "An error occurred: Unsupported operating system."
        ++ endl
        ++ "Please ensure the PID is correct and you have sufficient privileges (e.g., run with 'sudo' or as Administrator)."
        ++ endl).
Proof.
  split; [| split; [| split]]; split.
  - destruct (exit_code_and_platform_errors (empty_host Linux64 8)
                "affinity" ["99999999"; "0"]) as [_ Hthrow].
    destruct (Hthrow "99999999" "0" 99999999 0
                (runtime_error
                   "sched_setaffinity failed: No such process")
                eq_refl eq_refl eq_refl eq_refl eq_refl)
      as (what & Hwhat & _ & Hexit & _).
    exact Hexit.
  - destruct (exit_code_and_platform_errors (empty_host Linux64 8)
                "affinity" ["99999999"; "0"]) as [_ Hthrow].
    destruct (Hthrow "99999999" "0" 99999999 0
                (runtime_error
                   "sched_setaffinity failed: No such process")
                eq_refl eq_refl eq_refl eq_refl eq_refl)
      as (what & Hwhat & _ & _ & Herr).
    injection Hwhat as <-. exact Herr.
  - destruct (exit_code_and_platform_errors (empty_host Win64 8)
                "affinity" ["99999999"; "0"]) as [_ Hthrow].
    destruct (Hthrow "99999999" "0" 99999999 0
                (runtime_error
                   "Could not open process with PID 99999999. Error code: 87")
                eq_refl eq_refl eq_refl eq_refl eq_refl)
      as (what & Hwhat & _ & Hexit & _).
    exact Hexit.
  - destruct (exit_code_and_platform_errors (empty_host Win64 8)
                "affinity" ["99999999"; "0"]) as [_ Hthrow].
    destruct (Hthrow "99999999" "0" 99999999 0
                (runtime_error
                   "Could not open process with PID 99999999. Error code: 87")
                eq_refl eq_refl eq_refl eq_refl eq_refl)
      as (what & Hwhat & _ & _ & Herr).
    injection Hwhat as <-. exact Herr.
  - destruct (exit_code_and_platform_errors (refusing_host Win64 8)
                "affinity" ["321"; "2"]) as [_ Hthrow].
    destruct (Hthrow "321" "2" 321 2
                (runtime_error
                   "Failed to set process affinity mask. Error code: 5")
                eq_refl eq_refl eq_refl eq_refl eq_refl)
      as (what & Hwhat & _ & Hexit & _).
    exact Hexit.
  - destruct (exit_code_and_platform_errors (refusing_host Win64 8)
                "affinity" ["321"; "2"]) as [_ Hthrow].
    destruct (Hthrow "321" "2" 321 2
                (runtime_error
                   "Failed to set process affinity mask. Error code: 5")
                eq_refl eq_refl eq_refl eq_refl eq_refl)
      as (what & Hwhat & _ & _ & Herr).
    injection Hwhat as <-. exact Herr.
  - destruct (exit_code_and_platform_errors (willing_host Other64 8)
                "affinity" ["321"; "2"]) as [_ Hthrow].
    destruct (Hthrow "321" "2" 321 2
                (runtime_error
                   "Unsupported operating system.")
                eq_refl eq_refl eq_refl eq_refl eq_refl)
      as (what & Hwhat & _ & Hexit & _).
    exact Hexit.
  - destruct (exit_code_and_platform_errors (willing_host Other64 8)
                "affinity" ["321"; "2"]) as [_ Hthrow].
    destruct (Hthrow "321" "2" 321 2
                (runtime_error
                   "Unsupported operating system.")
                eq_refl eq_refl eq_refl eq_refl eq_refl)
      as (what & Hwhat & _ & _ & Herr).
    injection Hwhat as <-. exact Herr.
Defined.

(** Scenario 1 of the spec on the handle-based target: no such process. *)
Example no_such_process :
  run (empty_host Win64 8) "affinity" ["99999999"; "0"] =
  (Returns 1,
   {| cout := "Running on Windows." ++ endl;
      cerr := "An error occurred: Could not open process with PID 99999999. Error code: 87"
              ++ endl ++ privilege_hint ++ endl;
      last_error := 87; errno := 0; handles := [];
      calls := [Call_stol "99999999"; Call_stoi "0"; Call_GetSystemInfo;
                Enter_set_process_affinity 99999999 0;
                Call_OpenProcess process_access 99999999;
                Call_GetLastError] |}).
Proof. reflexivity. Qed.

(** Scenario 2 of the spec: a running process, a core within range. *)
Example affinity_set :
  run (willing_host Linux64 8) "affinity" ["12345"; "0"] =
  (Returns 0,
   {| cout := "Running on Linux." ++ endl
              ++ "Successfully set affinity for PID 12345 to core 0" ++ endl;
      cerr := ""; last_error := 0; errno := 0; handles := [];
      calls := [Call_stol "12345"; Call_stoi "0"; Call_sysconf;
                Enter_set_process_affinity 12345 0;
                Call_sched_setaffinity 12345 128 1] |}).
Proof. reflexivity. Qed.

(** ** Text that is not an integer *)

(** Scenario 4 of the spec: a first argument with no digits. *)
Example word_rejected :
  run (willing_host Linux64 8) "affinity" ["abc"; "0"] =
  (Returns 1,
   {| cout := ""; cerr := invalid_argument_text ++ usage_text "affinity";
      last_error := 0; errno := 0; handles := [];
      calls := [Call_stol "abc"] |}).
Proof. reflexivity. Qed.

(** An argument from which [strtol] converts nothing ends the run with exit
    code 1, the invalid-argument message and no platform call. *)
Lemma no_conversion_rejected (host : Host) (prog_name arg1 arg2 : string) :
  parse_failure (target host) arg1 arg2 = Some InvalidArgument ->
  fst (run host prog_name [arg1; arg2]) = Returns 1
  /\ cerr (snd (run host prog_name [arg1; arg2])) =
       invalid_argument_text ++ usage_text prog_name
  /\ no_platform_call (snd (run host prog_name [arg1; arg2])).
Proof.
  intros H. rewrite (parse_failure_run _ _ _ _ _ H).
  repeat split. apply parse_calls_not_platform.
Qed.

(** C4 at the failing input: ["12abc"] is not an integer, yet [std::stol]
    converts its leading digits, nothing looks at the rest, and the program
    sets the affinity of process 12 and exits with code 0. *)
Theorem trailing_text_accepted :
  is_integer "12abc" = false
  /\ stol Linux64 "12abc" = Value 12
  /\ run (willing_host Linux64 8) "affinity" ["12abc"; "0"] =
     (Returns 0,
      {| cout := "Running on Linux." ++ endl ++ success_text 12 0;
         cerr := ""; last_error := 0; errno := 0; handles := [];
         calls := [Call_stol "12abc"; Call_stoi "0"; Call_sysconf;
                   Enter_set_process_affinity 12 0;
                   Call_sched_setaffinity 12 128 1] |}).
Proof. repeat split; reflexivity. Qed.

(** ** Literals out of range *)

Lemma read_all_digits (s : string) (acc : Z) (n : nat) :
  all_digits s = true ->
  read_digits acc n s = (digits_value acc s, (n + String.length s)%nat, "").
Proof.
  revert acc n. induction s as [|c s IH]; intros acc n H; simpl in *.
  - now rewrite Nat.add_0_r.
  - apply andb_true_iff in H. destruct H as [Hc Hs]. rewrite Hc.
    rewrite IH by exact Hs. now rewrite Nat.add_succ_r.
Qed.

Lemma unsigned_literal_digits (s : string) (v : Z) :
  unsigned_literal s = Some v ->
  exists n, read_digits 0 0 s = (v, S n, "")
            /\ exists c s', s = String c s' /\ isdigit c = true.
Proof.
  unfold unsigned_literal. destruct s as [|c s']; [discriminate|].
  destruct (all_digits (String c s')) eqn:Hd; [|discriminate].
  intros H. injection H as <-. exists (String.length s'). split.
  - now rewrite (read_all_digits _ 0 0 Hd).
  - exists c, s'. simpl in Hd. apply andb_true_iff in Hd. tauto.
Qed.

(** An integer literal is read by [strtol] in full, with its value. *)
Lemma literal_strtol (s : string) (v : Z) :
  integer_literal s = Some v -> strtol_value s = Some v.
Proof.
  assert (Hplain : forall s v, unsigned_literal s = Some v ->
                               strtol_value s = Some v).
  { intros s0 v0 H. destruct (unsigned_literal_digits _ _ H)
      as (n & Hr & c & s' & -> & Hc).
    destruct (digit_not_space_or_sign c s' Hc) as [Hsp Hsg].
    unfold strtol_value. cbn [skip_space]. rewrite Hsp, Hsg, Hr.
    reflexivity. }
  destruct s as [|c s']; [discriminate|].
  destruct (Ascii.eqb c "-") eqn:Hm;
    [|destruct (Ascii.eqb c "+") eqn:Hpl].
  - apply Ascii.eqb_eq in Hm. subst c. simpl.
    destruct (unsigned_literal s') as [u|] eqn:Hu; [|discriminate].
    intros H. injection H as <-.
    destruct (unsigned_literal_digits _ _ Hu) as (n & Hr & _).
    unfold strtol_value.
    change (skip_space (String "-" s')) with (String "-" s').
    change (read_sign (String "-" s')) with (true, s').
    cbv beta iota. rewrite Hr. reflexivity.
  - apply Ascii.eqb_eq in Hpl. subst c. simpl. intros Hu.
    destruct (unsigned_literal_digits _ _ Hu) as (n & Hr & _).
    unfold strtol_value.
    change (skip_space (String "+" s')) with (String "+" s').
    change (read_sign (String "+" s')) with (false, s').
    cbv beta iota. rewrite Hr. reflexivity.
  - intros H. apply Hplain.
    destruct c as [b0 b1 b2 b3 b4 b5 b6 b7].
    destruct b0, b1, b2, b3, b4, b5, b6, b7;
      try discriminate Hm; try discriminate Hpl; exact H.
Qed.

Lemma exceeds_long (t : Target) (s : string) :
  exceeds (long_bits t) s -> stol t s = Failed OutOfRange.
Proof.
  intros (v & Hlit & Hout). unfold stol, sto.
  rewrite (literal_strtol _ _ Hlit).
  destruct (in_signedb (long_bits t) v) eqn:E; [|reflexivity].
  apply in_signedb_spec in E. contradiction.
Qed.

Lemma exceeds_int (t : Target) (s : string) :
  exceeds int_bits s -> stoi t s = Failed OutOfRange.
Proof.
  intros (v & Hlit & Hout). unfold stoi, sto.
  rewrite (literal_strtol _ _ Hlit).
  destruct (in_signedb int_bits v) eqn:E.
  - apply in_signedb_spec in E. contradiction.
  - now rewrite andb_false_r.
Qed.

Lemma out_of_range_text_found (prog_name : string) :
  contains "out of range" (out_of_range_text ++ usage_text prog_name) = true.
Proof. reflexivity. Qed.

(** C7, as the code has it: when the first argument is an integer literal
    outside [long], or the first argument parses and the second is an
    integer literal outside [int], the program exits with code 1, the error
    stream holds the out-of-range message (it contains "out of range")
    followed by the usage text, and no platform call is made. *)
Theorem literal_out_of_range (host : Host) (prog_name arg1 arg2 : string) :
  exceeds (long_bits (target host)) arg1
  \/ ((exists pid, stol (target host) arg1 = Value pid)
      /\ exceeds int_bits arg2) ->
  fst (run host prog_name [arg1; arg2]) = Returns 1
  /\ cerr (snd (run host prog_name [arg1; arg2])) =
       out_of_range_text ++ usage_text prog_name
  /\ contains "out of range" (cerr (snd (run host prog_name [arg1; arg2])))
     = true
  /\ no_platform_call (snd (run host prog_name [arg1; arg2])).
Proof.
  intros H.
  assert (Hf : parse_failure (target host) arg1 arg2 = Some OutOfRange).
  { unfold parse_failure. destruct H as [H1 | [[pid Hp] H2]].
    - now rewrite (exceeds_long _ _ H1).
    - now rewrite Hp, (exceeds_int _ _ H2). }
  rewrite (parse_failure_run _ _ _ _ _ Hf). cbn [fst snd cerr].
  split; [reflexivity | split; [reflexivity | split]].
  - apply out_of_range_text_found.
  - apply parse_calls_not_platform.
Qed.

Lemma literal_out_of_range_witness :
  fst (run (willing_host Win64 4) "affinity" ["2147483648"; "0"]) = Returns 1
  /\ cerr (snd (run (willing_host Win64 4) "affinity" ["2147483648"; "0"])) =
       out_of_range_text ++ usage_text "affinity"
  /\ contains "out of range"
       (cerr (snd (run (willing_host Win64 4) "affinity"
                     ["2147483648"; "0"])))
     = true
  /\ no_platform_call
       (snd (run (willing_host Win64 4) "affinity" ["2147483648"; "0"])).
Proof.
  apply (literal_out_of_range (willing_host Win64 4) "affinity"
           "2147483648" "0").
  left. exists 2147483648. split; [reflexivity |].
  unfold in_signed, signed_min, signed_max. simpl. lia.
Defined.

(** C7 fails as stated.  The core index ["99999999999"] is an integer
    literal outside [int], but the first argument is parsed first: with
    ["abc"] there the run ends on the invalid-argument message, and nothing
    on the error stream contains "out of range". *)
Lemma overflow_behind_invalid_pid :
  exceeds int_bits "99999999999"
  /\ run (willing_host Linux64 8) "affinity" ["abc"; "99999999999"] =
     (Returns 1,
      {| cout := ""; cerr := invalid_argument_text ++ usage_text "affinity";
         last_error := 0; errno := 0; handles := [];
         calls := [Call_stol "abc"] |})
  /\ contains "out of range"
       (cerr (snd (run (willing_host Linux64 8) "affinity"
                     ["abc"; "99999999999"])))
     = false.
Proof.
  split; [| split; reflexivity].
  exists 99999999999. split; [reflexivity |].
  unfold in_signed, signed_min, signed_max, int_bits. simpl. lia.
Qed.

(** * Further properties of the program *)

(** ** Every path of a validated run *)

(** Splits a goal about [set_process_affinity host p c w] into the paths of
    the three bodies, rewriting the call with its outcome. *)
Ltac affinity_paths host p c w Hos :=
  destruct (os_of (target host)) eqn:Hos;
  [ rewrite (windows_run host p c w Hos); cbv zeta;
    destruct (os_OpenProcess host process_access (to_pid host p) =? 0)
      eqn:Hopen;
    [| destruct ((0 <=? c) && (c <? 64)) eqn:Hshift;
       [ destruct (os_SetProcessAffinityMask host
                     (os_OpenProcess host process_access (to_pid host p))
                     (affinity_mask (target host) c)) eqn:Hmask |] ]
  | rewrite (linux_run host p c w Hos); cbv zeta;
    destruct (os_sched_setaffinity host (to_pid host p) sizeof_cpu_set_t
                (CPU_SET host c CPU_ZERO)) eqn:Hsched
  | rewrite (other_run host p c w Hos) ].

(** ** The core count *)

(** X1: [get_hardware_concurrency] returns a value of [unsigned int].
    Away from Windows, where the host's answer is the [long] that [sysconf]
    returns, an answer of zero or less becomes the sentinel 0.  A positive
    answer that fits [unsigned int] is returned as it is: on Windows every
    [DWORD] from 1 to [2^32 - 1], elsewhere every such [long]. *)
Theorem core_count_of_host_answer (host : Host) :
  0 <= hardware_concurrency host < 2 ^ 32
  /\ (os_of (target host) <> Windows ->
      in_signed (long_bits (target host)) (os_processors host) ->
      os_processors host <= 0 ->
      hardware_concurrency host = 0)
  /\ (os_of (target host) = Windows
      \/ in_signed (long_bits (target host)) (os_processors host) ->
      0 < os_processors host < 2 ^ 32 ->
      hardware_concurrency host = os_processors host).
Proof.
  split; [apply hardware_concurrency_range | split].
  - intros Hos Hlong Hle. unfold hardware_concurrency.
    destruct (os_of (target host)); [congruence | |];
      rewrite to_signed_id by (auto; destruct (target host); simpl; lia);
      (destruct (0 <? os_processors host) eqn:E;
       [apply Z.ltb_lt in E; lia | reflexivity]).
  - intros Htype Hpos. unfold hardware_concurrency.
    assert (Hu : to_unsigned int_bits (os_processors host)
                 = os_processors host).
    { apply to_unsigned_id. unfold in_unsigned, unsigned_max, int_bits.
      lia. }
    destruct (os_of (target host)) eqn:Hos; [exact Hu | |];
      (destruct Htype as [Hw | Hlong]; [discriminate Hw |]);
      rewrite to_signed_id by (auto; destruct (target host); simpl; lia);
      (destruct (0 <? os_processors host) eqn:E;
       [exact Hu | apply Z.ltb_ge in E; lia]).
Qed.

Lemma core_count_of_host_answer_witness :
  hardware_concurrency (willing_host Linux64 (-1)) = 0
  /\ hardware_concurrency (willing_host Win64 3000000000) = 3000000000
  /\ hardware_concurrency (willing_host Linux64 12) = 12.
Proof.
  split; [| split].
  - destruct (core_count_of_host_answer (willing_host Linux64 (-1)))
      as (_ & Hzero & _).
    apply Hzero.
    + simpl. discriminate.
    + unfold in_signed, signed_min, signed_max. simpl. lia.
    + simpl. lia.
  - destruct (core_count_of_host_answer (willing_host Win64 3000000000))
      as (_ & _ & Hsame).
    apply Hsame.
    + left. reflexivity.
    + simpl. lia.
  - destruct (core_count_of_host_answer (willing_host Linux64 12))
      as (_ & _ & Hsame).
    apply Hsame.
    + right. unfold in_signed, signed_min, signed_max. simpl. lia.
    + simpl. lia.
Defined.

(** ** A core index within range *)

(** X2: with both arguments parsed, a known core count [N > 0] and
    [0 <= core_id < N], the range test lets the run through: it is the call
    of [set_process_affinity] with the parsed values and what [main] reports
    of it. *)
Theorem core_in_range_reaches_call (host : Host)
    (prog_name arg1 arg2 : string) (pid core_id : Z) :
  stol (target host) arg1 = Value pid ->
  stoi (target host) arg2 = Value core_id ->
  0 <= core_id < hardware_concurrency host ->
  run host prog_name [arg1; arg2] =
    report (set_process_affinity host pid core_id
              (world_at_call host arg1 arg2))
  /\ In (Enter_set_process_affinity (to_pid host pid) core_id)
        (calls (snd (run host prog_name [arg1; arg2]))).
Proof.
  intros Hp Hc Hrange.
  assert (Hrej : core_rejected host core_id = false).
  { destruct (core_rejected host core_id) eqn:E; [|reflexivity].
    apply core_rejected_spec in E; [lia | exact (stoi_range _ _ _ Hc)]. }
  pose proof (main_parsed host prog_name arg1 arg2 pid core_id Hp Hc) as Hr.
  rewrite Hrej in Hr. rewrite Hr. split; [reflexivity |].
  rewrite report_calls.
  destruct (affinity_calls host pid core_id (world_at_call host arg1 arg2))
    as (rest & Hcalls & _).
  rewrite Hcalls. apply in_or_app. right. left. reflexivity.
Qed.

Lemma core_in_range_reaches_call_witness :
  run (refusing_host Linux64 8) "affinity" ["77"; "7"] =
    report (set_process_affinity (refusing_host Linux64 8) 77 7
              (world_at_call (refusing_host Linux64 8) "77" "7"))
  /\ In (Enter_set_process_affinity (to_pid (refusing_host Linux64 8) 77) 7)
        (calls (snd (run (refusing_host Linux64 8) "affinity" ["77"; "7"]))).
Proof.
  apply (core_in_range_reaches_call (refusing_host Linux64 8) "affinity"
           "77" "7" 77 7).
  - reflexivity.
  - reflexivity.
  - vm_compute. split; [discriminate | reflexivity].
Defined.

(** X3: the core index [set_process_affinity] is entered with is an [int],
    and when the core count [N] is known ([N > 0]) it satisfies
    [0 <= core_id < N]. *)
Theorem entered_core_is_valid (host : Host) (prog_name : string)
    (args : list string) (pid core_id : Z) :
  In (Enter_set_process_affinity pid core_id)
     (calls (snd (run host prog_name args))) ->
  in_signed int_bits core_id
  /\ (0 < hardware_concurrency host ->
      0 <= core_id < hardware_concurrency host).
Proof.
  intros Hin.
  destruct (enter_origin _ _ _ _ _ Hin)
    as (a1 & a2 & p & _ & _ & Hc & Hrej & _).
  pose proof (stoi_range _ _ _ Hc) as Hint. split; [exact Hint |].
  intros Hn.
  destruct (Z.lt_ge_cases core_id 0) as [Hneg | Hpos].
  - assert (core_rejected host core_id = true)
      by (apply core_rejected_spec; auto). congruence.
  - destruct (Z.lt_ge_cases core_id (hardware_concurrency host))
      as [Hlt | Hge]; [lia |].
    assert (core_rejected host core_id = true)
      by (apply core_rejected_spec; auto). congruence.
Qed.

Lemma entered_core_is_valid_witness :
  in_signed int_bits 3
  /\ (0 < hardware_concurrency (willing_host Win64 8) ->
      0 <= 3 < hardware_concurrency (willing_host Win64 8)).
Proof.
  apply (entered_core_is_valid (willing_host Win64 8) "affinity"
           ["4242"; "3"] 4242 3).
  vm_compute. tauto.
Defined.

(** ** How a run ends *)

(** Splits a goal about [run host prog_name args] into every path of
    [main], rewriting the run with its outcome and final world. *)
Ltac run_paths host prog_name args :=
  let a1 := fresh "arg1" in
  let a2 := fresh "arg2" in
  let p := fresh "pid" in
  let c := fresh "core_id" in
  let e := fresh "e" in
  let Hr := fresh "Hrun" in
  destruct (run_shape host prog_name args)
    as [Hlen Hr | a1 a2 e Hargs Hfail Hr | a1 a2 p c Hargs Hp Hc Hrej Hr
        | a1 a2 p c Hargs Hp Hc Hrej Hr];
  rewrite Hr; clear Hr;
  [ | | |
    let Hos := fresh "Hos" in
    affinity_paths host p c (world_at_call host a1 a2) Hos ].

(** X4: no exception escapes [main].  A run ends with exit code 0 or 1, or,
    on the handle-based target only, in undefined behaviour. *)
Theorem exit_code_zero_or_one (host : Host) (prog_name : string)
    (args : list string) :
  fst (run host prog_name args) = Returns 0
  \/ fst (run host prog_name args) = Returns 1
  \/ (fst (run host prog_name args) = Undefined
      /\ os_of (target host) = Windows).
Proof.
  run_paths host prog_name args; simpl; auto.
Qed.

Lemma shift_test_of_range (host : Host) (arg2 : string) (core_id : Z) :
  stoi (target host) arg2 = Value core_id ->
  core_rejected host core_id = false ->
  0 < hardware_concurrency host <= 64 ->
  (0 <=? core_id) && (core_id <? 64) = true.
Proof.
  intros Hc Hrej Hn.
  destruct (Z.lt_ge_cases core_id 0) as [Hneg | Hpos].
  - assert (core_rejected host core_id = true)
      by (apply core_rejected_spec;
          [exact (stoi_range _ _ _ Hc) | lia]).
    congruence.
  - destruct (Z.lt_ge_cases core_id (hardware_concurrency host))
      as [Hlt | Hge].
    + apply andb_true_iff. rewrite Z.leb_le, Z.ltb_lt. lia.
    + assert (core_rejected host core_id = true)
        by (apply core_rejected_spec;
            [exact (stoi_range _ _ _ Hc) | lia]).
      congruence.
Qed.

(** X5: away from the handle-based target, or when the host reports between
    1 and 64 processors, every run is defined and ends with exit code 0 or
    1: the shift [1ULL << core_id] is only reached with a count from 0 to
    63. *)
Theorem run_defined_when_count_known (host : Host) (prog_name : string)
    (args : list string) :
  os_of (target host) <> Windows
  \/ 0 < hardware_concurrency host <= 64 ->
  fst (run host prog_name args) = Returns 0
  \/ fst (run host prog_name args) = Returns 1.
Proof.
  intros Hsafe.
  run_paths host prog_name args; simpl; auto.
  destruct Hsafe as [Hnw | Hn]; [congruence |].
  rewrite (shift_test_of_range host arg2 core_id Hc Hrej Hn) in Hshift.
  discriminate.
Qed.

Lemma run_defined_when_count_known_witness :
  fst (run (willing_host Win64 16) "affinity" ["321"; "-5"]) = Returns 0
  \/ fst (run (willing_host Win64 16) "affinity" ["321"; "-5"]) = Returns 1.
Proof.
  apply (run_defined_when_count_known (willing_host Win64 16) "affinity"
           ["321"; "-5"]).
  right. vm_compute. split; [reflexivity | discriminate].
Defined.

(** X6: a run that ends with an exit code leaves no process handle open,
    whichever path it took. *)
Theorem no_handle_left_open (host : Host) (prog_name : string)
    (args : list string) :
  fst (run host prog_name args) <> Undefined ->
  handles (snd (run host prog_name args)) = [].
Proof.
  run_paths host prog_name args; simpl; intros Hdef; try reflexivity.
  now elim Hdef.
Qed.

Lemma no_handle_left_open_witness :
  handles (snd (run (refusing_host Win32 4) "affinity" ["321"; "1"])) = [].
Proof.
  apply (no_handle_left_open (refusing_host Win32 4) "affinity"
           ["321"; "1"]).
  vm_compute. discriminate.
Defined.

(** X7: exit code 0 leaves the error stream empty, and exit code 1 never
    comes without text on the error stream. *)
Theorem error_stream_tells_failure (host : Host) (prog_name : string)
    (args : list string) :
  (fst (run host prog_name args) = Returns 0 ->
   cerr (snd (run host prog_name args)) = "")
  /\ (fst (run host prog_name args) = Returns 1 ->
      cerr (snd (run host prog_name args)) <> "").
Proof.
  run_paths host prog_name args; simpl; split; intros H;
    try discriminate H; try reflexivity;
    try (unfold usage_text, core_range_text, platform_error_text;
         discriminate).
  destruct e; discriminate.
Qed.

Lemma error_stream_tells_failure_witness :
  cerr (snd (run (willing_host Linux64 8) "affinity" ["12345"; "0"])) = ""
  /\ cerr (snd (run (empty_host Linux64 8) "affinity" ["12345"; "0"])) <> "".
Proof.
  split.
  - apply (error_stream_tells_failure (willing_host Linux64 8) "affinity"
             ["12345"; "0"]).
    reflexivity.
  - apply (error_stream_tells_failure (empty_host Linux64 8) "affinity"
             ["12345"; "0"]).
    reflexivity.
Defined.

(** ** The fallback body *)

(** X8: built for a platform that is neither of the two supported ones, the
    program never exits with code 0, writes nothing to the standard output
    and asks the operating system for nothing: no process is opened and no
    affinity is requested. *)
Theorem unsupported_platform_always_fails (host : Host)
    (prog_name : string) (args : list string) :
  os_of (target host) = OtherOS ->
  fst (run host prog_name args) = Returns 1
  /\ cout (snd (run host prog_name args)) = ""
  /\ count_calls is_affinity_request (calls (snd (run host prog_name args)))
     = 0%nat
  /\ count_calls is_open_process (calls (snd (run host prog_name args)))
     = 0%nat.
Proof.
  intros Hother. unfold count_calls.
  run_paths host prog_name args; try congruence; simpl;
    unfold parse_calls, core_query; try rewrite Hos; rewrite ?Hother;
    try (destruct (stol (target host) arg1)); simpl; auto.
Qed.

Lemma unsupported_platform_always_fails_witness :
  fst (run (willing_host Other64 8) "affinity" ["12345"; "0"]) = Returns 1
  /\ cout (snd (run (willing_host Other64 8) "affinity" ["12345"; "0"])) = ""
  /\ count_calls is_affinity_request
       (calls (snd (run (willing_host Other64 8) "affinity" ["12345"; "0"])))
     = 0%nat
  /\ count_calls is_open_process
       (calls (snd (run (willing_host Other64 8) "affinity" ["12345"; "0"])))
     = 0%nat.
Proof.
  apply (unsupported_platform_always_fails (willing_host Other64 8)
           "affinity" ["12345"; "0"]).
  reflexivity.
Defined.

(** ** Success *)

(** X9: a run that exits with code 0 had two arguments that parsed, and its
    standard output is the platform line followed by the success line naming
    the identifier as handed to the platform and the core index. *)
Theorem success_names_pid_and_core (host : Host) (prog_name : string)
    (args : list string) :
  fst (run host prog_name args) = Returns 0 ->
  exists arg1 arg2 pid core_id,
    args = [arg1; arg2]
    /\ stol (target host) arg1 = Value pid
    /\ stoi (target host) arg2 = Value core_id
    /\ cout (snd (run host prog_name args)) =
         banner (os_of (target host))
         ++ "Successfully set affinity for PID " ++ to_string (to_pid host pid)
         ++ " to core " ++ to_string core_id ++ endl.
Proof.
  run_paths host prog_name args; simpl; intros H; try discriminate H;
    exists arg1, arg2, pid, core_id; repeat split; auto;
    unfold success_text; now rewrite ?append_assoc.
Qed.

Lemma success_names_pid_and_core_witness :
  exists arg1 arg2 pid core_id,
    ["  +77tail"; "2"] = [arg1; arg2]
    /\ stol (target (willing_host Win64 8)) arg1 = Value pid
    /\ stoi (target (willing_host Win64 8)) arg2 = Value core_id
    /\ cout (snd (run (willing_host Win64 8) "affinity"
                    ["  +77tail"; "2"])) =
         banner (os_of (target (willing_host Win64 8)))
         ++ "Successfully set affinity for PID "
         ++ to_string (to_pid (willing_host Win64 8) pid)
         ++ " to core " ++ to_string core_id ++ endl.
Proof.
  apply (success_names_pid_and_core (willing_host Win64 8) "affinity"
           ["  +77tail"; "2"]).
  reflexivity.
Defined.

(** ** How many system calls *)

(** X10: a run asks the operating system to change an affinity at most
    once, opens at most one process, and closes no more handles than it
    opened. *)
Theorem at_most_one_request (host : Host) (prog_name : string)
    (args : list string) :
  (count_calls is_affinity_request (calls (snd (run host prog_name args)))
   <= 1)%nat
  /\ (count_calls is_close_handle (calls (snd (run host prog_name args)))
      <= count_calls is_open_process
           (calls (snd (run host prog_name args))))%nat
  /\ (count_calls is_open_process (calls (snd (run host prog_name args)))
      <= 1)%nat.
Proof.
  unfold count_calls.
  run_paths host prog_name args; simpl;
    unfold parse_calls, core_query; try rewrite Hos;
    try (destruct (stol (target host) arg1));
    try (destruct (os_of (target host))); simpl; lia.
Qed.

(** ** A process that cannot be opened *)

(** X11: when the log shows an [OpenProcess] that returned [NULL], the run
    requested no affinity and closed no handle; it exits with code 1 and the
    error stream names the identifier and the last-error code of that
    call. *)
Theorem null_handle_is_never_used (host : Host) (prog_name : string)
    (args : list string) (access pid : Z) :
  In (Call_OpenProcess access pid) (calls (snd (run host prog_name args))) ->
  os_OpenProcess host access pid = 0 ->
  fst (run host prog_name args) = Returns 1
  /\ count_calls is_affinity_request (calls (snd (run host prog_name args)))
     = 0%nat
  /\ count_calls is_close_handle (calls (snd (run host prog_name args)))
     = 0%nat
  /\ cerr (snd (run host prog_name args)) =
       "An error occurred: Could not open process with PID "
       ++ to_string pid ++ ". Error code: "
       ++ to_string (os_OpenProcess_error host access pid) ++ endl
       ++ privilege_hint ++ endl.
Proof.
  intros Hin Hnull.
  destruct (platform_call_origin _ _ _ _ Hin eq_refl)
    as (a1 & a2 & p & c & -> & Hp & Hc & Hrej & Hin').
  apply affinity_call_inv in Hin'.
  destruct Hin' as [Hw | [He | [[Hos Hwin] | [_ Hlin]]]].
  - simpl in Hw. pose proof (core_query_not_platform host) as Hq.
    destruct Hw as [Hw|[Hw|[Hw|[]]]]; try discriminate Hw.
    rewrite Hw in Hq. discriminate Hq.
  - discriminate He.
  - destruct Hwin as [Hx|[Hx|[Hx|[Hx _]]]]; try discriminate Hx.
    injection Hx as -> ->.
    pose proof (main_parsed host prog_name a1 a2 p c Hp Hc) as Hr.
    rewrite Hrej in Hr. rewrite Hr.
    rewrite (windows_run host p c _ Hos). cbv zeta.
    rewrite Hnull. change (0 =? 0) with true. cbv iota.
    unfold count_calls, world_at_call, core_query. rewrite Hos. simpl.
    unfold platform_error_text, cannot_open_text.
    rewrite ?append_assoc. auto.
  - destruct Hlin as [Hx|[e Hx]]; discriminate Hx.
Qed.

Lemma null_handle_is_never_used_witness :
  fst (run (empty_host Win64 8) "affinity" ["99999999"; "0"]) = Returns 1
  /\ count_calls is_affinity_request
       (calls (snd (run (empty_host Win64 8) "affinity" ["99999999"; "0"])))
     = 0%nat
  /\ count_calls is_close_handle
       (calls (snd (run (empty_host Win64 8) "affinity" ["99999999"; "0"])))
     = 0%nat
  /\ cerr (snd (run (empty_host Win64 8) "affinity" ["99999999"; "0"])) =
       "An error occurred: Could not open process with PID "
       ++ to_string 99999999 ++ ". Error code: "
       ++ to_string (os_OpenProcess_error (empty_host Win64 8)
                       process_access 99999999) ++ endl
       ++ privilege_hint ++ endl.
Proof.
  apply (null_handle_is_never_used (empty_host Win64 8) "affinity"
           ["99999999"; "0"] process_access 99999999).
  - vm_compute. tauto.
  - reflexivity.
Defined.

(** ** What the outcome depends on *)

Lemma affinity_ignores_log (host : Host) (pid_long core_id : Z)
    (a1 a2 b1 b2 : string) :
  let ra := set_process_affinity host pid_long core_id
              (world_at_call host a1 a2) in
  let rb := set_process_affinity host pid_long core_id
              (world_at_call host b1 b2) in
  fst ra = fst rb
  /\ cout (snd ra) = cout (snd rb)
  /\ cerr (snd ra) = cerr (snd rb)
  /\ handles (snd ra) = handles (snd rb).
Proof.
  cbv zeta.
  destruct (os_of (target host)) eqn:Hos.
  - rewrite !(windows_run host pid_long core_id _ Hos). cbv zeta.
    destruct (_ =? 0); [|destruct (_ && _);
                          [destruct (os_SetProcessAffinityMask _ _ _)|]];
      simpl; auto.
  - rewrite !(linux_run host pid_long core_id _ Hos). cbv zeta.
    destruct (os_sched_setaffinity _ _ _ _); simpl; auto.
  - rewrite !(other_run host pid_long core_id _ Hos). simpl. auto.
Qed.

(** X12: the outcome depends on the two arguments only through the values
    [stol] and [stoi] give them.  Two argument pairs with the same parsed
    values lead to the same exit code, the same standard output and the same
    error stream; white space before the number and any text after its
    digits make no difference. *)
Theorem outcome_depends_on_parsed_values (host : Host)
    (prog_name a1 a2 b1 b2 : string) (pid core_id : Z) :
  stol (target host) a1 = Value pid ->
  stol (target host) b1 = Value pid ->
  stoi (target host) a2 = Value core_id ->
  stoi (target host) b2 = Value core_id ->
  fst (run host prog_name [a1; a2]) = fst (run host prog_name [b1; b2])
  /\ cout (snd (run host prog_name [a1; a2]))
     = cout (snd (run host prog_name [b1; b2]))
  /\ cerr (snd (run host prog_name [a1; a2]))
     = cerr (snd (run host prog_name [b1; b2])).
Proof.
  intros Ha1 Hb1 Ha2 Hb2.
  rewrite (main_parsed host prog_name a1 a2 pid core_id Ha1 Ha2).
  rewrite (main_parsed host prog_name b1 b2 pid core_id Hb1 Hb2).
  destruct (core_rejected host core_id); [simpl; auto |].
  destruct (affinity_ignores_log host pid core_id a1 a2 b1 b2)
    as (Hfst & Hout & Herr & _).
  destruct (set_process_affinity host pid core_id (world_at_call host a1 a2))
    as [oa wa].
  destruct (set_process_affinity host pid core_id (world_at_call host b1 b2))
    as [ob wb].
  simpl in Hfst, Hout, Herr. subst ob.
  destruct oa as [u | [| | what] |]; simpl; rewrite ?Hout, ?Herr; auto.
Qed.

Lemma outcome_depends_on_parsed_values_witness :
  fst (run (empty_host Linux64 8) "affinity" ["12"; "3"])
  = fst (run (empty_host Linux64 8) "affinity" [" +12abc"; "3.5"])
  /\ cout (snd (run (empty_host Linux64 8) "affinity" ["12"; "3"]))
     = cout (snd (run (empty_host Linux64 8) "affinity" [" +12abc"; "3.5"]))
  /\ cerr (snd (run (empty_host Linux64 8) "affinity" ["12"; "3"]))
     = cerr (snd (run (empty_host Linux64 8) "affinity" [" +12abc"; "3.5"])).
Proof.
  apply (outcome_depends_on_parsed_values (empty_host Linux64 8) "affinity"
           "12" "3" " +12abc" "3.5" 12 3); reflexivity.
Defined.

(** X13: when the first argument does not parse, the second is never
    looked at: [stoi] is not called, the host is not asked for its core
    count, and the run is the same whatever the second argument is. *)
Theorem failed_pid_hides_core (host : Host) (prog_name arg1 : string)
    (e : ParseError) (arg2 arg2' : string) :
  stol (target host) arg1 = Failed e ->
  calls (snd (run host prog_name [arg1; arg2])) = [Call_stol arg1]
  /\ run host prog_name [arg1; arg2] = run host prog_name [arg1; arg2'].
Proof.
  intros Hf.
  assert (Hrun : forall a,
             run host prog_name [arg1; a] =
             (Returns 1,
              {| cout := "";
                 cerr := parse_error_text e ++ usage_text prog_name;
                 last_error := 0; errno := 0; handles := [];
                 calls := [Call_stol arg1] |})).
  { intros a.
    assert (Hpf : parse_failure (target host) arg1 a = Some e)
      by (unfold parse_failure; now rewrite Hf).
    rewrite (parse_failure_run host prog_name arg1 a e Hpf).
    unfold parse_calls. now rewrite Hf. }
  rewrite (Hrun arg2), (Hrun arg2'). split; reflexivity.
Qed.

Lemma failed_pid_hides_core_witness :
  calls (snd (run (willing_host Linux64 8) "affinity" ["pid"; "0"]))
  = [Call_stol "pid"]
  /\ run (willing_host Linux64 8) "affinity" ["pid"; "0"]
     = run (willing_host Linux64 8) "affinity" ["pid"; "99999999999"].
Proof.
  apply (failed_pid_hides_core (willing_host Linux64 8) "affinity" "pid"
           InvalidArgument "0" "99999999999").
  reflexivity.
Defined.

(** ** The identifier within its native type *)

Lemma to_signed_range (w x : Z) : 0 < w -> in_signed w (to_signed w x).
Proof.
  intros Hw. unfold in_signed, signed_min, signed_max, to_signed.
  assert (E : 2 ^ w = 2 * 2 ^ (w - 1)).
  { replace w with (Z.succ (w - 1)) at 1 by lia. apply Z.pow_succ_r. lia. }
  pose proof (Z.pow_pos_nonneg 2 (w - 1) ltac:(lia) ltac:(lia)) as Hpos.
  pose proof (Z.mod_pos_bound (x + 2 ^ (w - 1)) (2 ^ w) ltac:(lia)) as Hm.
  lia.
Qed.

(** X14: the identifier [set_process_affinity] is entered with always lies
    within the native identifier type of the target, whatever [long] was
    parsed: it is never negative on the handle-based target and always a
    [pid_t] on the POSIX-like one. *)
Theorem entered_pid_is_native (host : Host) (prog_name : string)
    (args : list string) (pid core_id : Z) :
  In (Enter_set_process_affinity pid core_id)
     (calls (snd (run host prog_name args))) ->
  pid_representable (target host) pid.
Proof.
  intros Hin.
  destruct (enter_origin _ _ _ _ _ Hin) as (a1 & a2 & p & _ & _ & _ & _ & ->).
  unfold pid_representable, to_pid.
  destruct (os_of (target host)).
  - unfold in_unsigned, unsigned_max.
    pose proof (to_unsigned_range (long_bits (target host)) p
                  ltac:(destruct (target host); simpl; lia)).
    lia.
  - apply to_signed_range. unfold int_bits. lia.
  - apply to_signed_range. destruct (target host); simpl; lia.
Qed.

Lemma entered_pid_is_native_witness :
  pid_representable (target (willing_host Win64 8)) 4294967295.
Proof.
  apply (entered_pid_is_native (willing_host Win64 8) "affinity"
           ["-1"; "3"] 4294967295 3).
  vm_compute. tauto.
Defined.

(** ** The mask when the core count is known *)

Lemma request_origin (host : Host) (prog_name : string)
    (args : list string) (x : Call) :
  In x (calls (snd (run host prog_name args))) ->
  is_affinity_request x = true ->
  exists arg1 arg2 pid core_id,
    args = [arg1; arg2]
    /\ stol (target host) arg1 = Value pid
    /\ stoi (target host) arg2 = Value core_id
    /\ core_rejected host core_id = false
    /\ (x = Call_sched_setaffinity (to_pid host pid) sizeof_cpu_set_t
              (CPU_SET host core_id CPU_ZERO)
        \/ x = Call_SetProcessAffinityMask
                 (os_OpenProcess host process_access (to_pid host pid))
                 (affinity_mask (target host) core_id)).
Proof.
  intros Hin Hreq.
  assert (Hplat : is_platform_call x = true) by (destruct x; auto).
  destruct (platform_call_origin _ _ _ _ Hin Hplat)
    as (a1 & a2 & p & c & Ha & Hp & Hc & Hrej & Hin').
  exists a1, a2, p, c. repeat split; auto.
  apply affinity_call_inv in Hin'.
  destruct Hin' as [Hw | [He | [[_ Hwin] | [_ Hlin]]]].
  - simpl in Hw. pose proof (core_query_not_platform host) as Hq.
    destruct Hw as [Hw|[Hw|[Hw|[]]]]; subst x; try discriminate Hreq.
    congruence.
  - subst x. discriminate Hreq.
  - destruct Hwin as [Hx|[Hx|[Hx|[Hx _]]]]; subst x;
      try discriminate Hreq. auto.
  - destruct Hlin as [Hx|[e Hx]]; subst x; try discriminate Hreq. auto.
Qed.

Lemma accepted_core_in_range (host : Host) (arg2 : string) (core_id : Z) :
  stoi (target host) arg2 = Value core_id ->
  core_rejected host core_id = false ->
  0 < hardware_concurrency host ->
  0 <= core_id < hardware_concurrency host.
Proof.
  intros Hc Hrej Hn. pose proof (stoi_range _ _ _ Hc) as Hint.
  destruct (Z.lt_ge_cases core_id 0) as [Hneg | Hpos].
  - assert (core_rejected host core_id = true)
      by (apply core_rejected_spec; auto). congruence.
  - destruct (Z.lt_ge_cases core_id (hardware_concurrency host))
      as [Hlt | Hge]; [lia |].
    assert (core_rejected host core_id = true)
      by (apply core_rejected_spec; auto). congruence.
Qed.

(** X15: on a host that reports between 1 and [CPU_SETSIZE] processors,
    every [sched_setaffinity] of a run is made for the whole [cpu_set_t],
    with the set whose only member is the parsed core index, and that index
    is below the reported count. *)
Theorem posix_request_is_one_valid_core (host : Host) (prog_name : string)
    (args : list string) (pid size : Z) (set : cpu_set_t) :
  In (Call_sched_setaffinity pid size set)
     (calls (snd (run host prog_name args))) ->
  0 < hardware_concurrency host <= CPU_SETSIZE ->
  exists arg1 arg2 core_id,
    args = [arg1; arg2]
    /\ stoi (target host) arg2 = Value core_id
    /\ 0 <= core_id < hardware_concurrency host
    /\ size = sizeof_cpu_set_t
    /\ single_bit set core_id.
Proof.
  intros Hin Hn.
  destruct (request_origin _ _ _ _ Hin eq_refl)
    as (a1 & a2 & p & c & Ha & Hp & Hc & Hrej & [Hx | Hx]);
    [| discriminate Hx].
  injection Hx as -> -> ->.
  pose proof (accepted_core_in_range host a2 c Hc Hrej ltac:(lia)) as Hr.
  exists a1, a2, c. repeat split; auto; try lia.
  rewrite CPU_SET_single by lia. apply single_bit_pow2. lia.
Qed.

Lemma posix_request_is_one_valid_core_witness :
  exists arg1 arg2 core_id,
    ["123"; "5"] = [arg1; arg2]
    /\ stoi (target (willing_host Linux64 8)) arg2 = Value core_id
    /\ 0 <= core_id < hardware_concurrency (willing_host Linux64 8)
    /\ 128 = sizeof_cpu_set_t
    /\ single_bit 32 core_id.
Proof.
  apply (posix_request_is_one_valid_core (willing_host Linux64 8)
           "affinity" ["123"; "5"] 123 128 32).
  - vm_compute. tauto.
  - vm_compute. split; [reflexivity | discriminate].
Defined.

(** X16: on a handle-based host that reports between 1 and as many
    processors as [DWORD_PTR] has bits, every [SetProcessAffinityMask] of a
    run is made on the handle [OpenProcess] returned, which is not [NULL],
    with the mask [2 ^ core_id] of the parsed core index, and that index is
    below the reported count. *)
Theorem handle_request_is_one_valid_core (host : Host)
    (prog_name : string) (args : list string) (h mask : Z) :
  In (Call_SetProcessAffinityMask h mask)
     (calls (snd (run host prog_name args))) ->
  0 < hardware_concurrency host <= ptr_bits (target host) ->
  exists arg1 arg2 pid core_id,
    args = [arg1; arg2]
    /\ stol (target host) arg1 = Value pid
    /\ stoi (target host) arg2 = Value core_id
    /\ 0 <= core_id < hardware_concurrency host
    /\ h = os_OpenProcess host process_access (to_pid host pid)
    /\ h <> 0
    /\ mask = 2 ^ core_id.
Proof.
  intros Hin Hn.
  destruct (request_origin _ _ _ _ Hin eq_refl)
    as (a1 & a2 & p & c & -> & Hp & Hc & Hrej & [Hx | Hx]);
    [discriminate Hx |].
  injection Hx as -> ->.
  pose proof (accepted_core_in_range host a2 c Hc Hrej ltac:(lia)) as Hr.
  exists a1, a2, p, c. repeat split; auto; try lia.
  - intros Hnull.
    pose proof (main_parsed host prog_name a1 a2 p c Hp Hc) as Hrun.
    rewrite Hrej in Hrun. rewrite Hrun, report_calls in Hin.
    assert (Hos : os_of (target host) = Windows).
    { destruct (os_of (target host)) eqn:Hos; [reflexivity | |].
      - rewrite (linux_run host p c _ Hos) in Hin. cbv zeta in Hin.
        unfold world_at_call, core_query in Hin. rewrite Hos in Hin.
        destruct (os_sched_setaffinity _ _ _ _); simpl in Hin;
          intuition discriminate.
      - rewrite (other_run host p c _ Hos) in Hin.
        unfold world_at_call, core_query in Hin. rewrite Hos in Hin.
        simpl in Hin. intuition discriminate. }
    rewrite (windows_run host p c _ Hos) in Hin. cbv zeta in Hin.
    rewrite Hnull in Hin. change (0 =? 0) with true in Hin. cbv iota in Hin.
    unfold world_at_call, core_query in Hin. rewrite Hos in Hin.
    simpl in Hin. intuition discriminate.
  - apply affinity_mask_single. lia.
Qed.

Lemma handle_request_is_one_valid_core_witness :
  exists arg1 arg2 pid core_id,
    ["123"; "40"] = [arg1; arg2]
    /\ stol (target (willing_host Win64 64)) arg1 = Value pid
    /\ stoi (target (willing_host Win64 64)) arg2 = Value core_id
    /\ 0 <= core_id < hardware_concurrency (willing_host Win64 64)
    /\ 4660 = os_OpenProcess (willing_host Win64 64) process_access
                (to_pid (willing_host Win64 64) pid)
    /\ 4660 <> 0
    /\ 1099511627776 = 2 ^ core_id.
Proof.
  apply (handle_request_is_one_valid_core (willing_host Win64 64)
           "affinity" ["123"; "40"] 4660 1099511627776).
  - vm_compute. tauto.
  - vm_compute. split; [reflexivity | discriminate].
Defined.

(** ** The standard output on failure *)

(** X17: a run that exits with code 1 never prints the success line: its
    standard output is empty, or holds only the line naming the platform
    when the failure came from the operating system. *)
Theorem failure_prints_no_success (host : Host) (prog_name : string)
    (args : list string) :
  fst (run host prog_name args) = Returns 1 ->
  cout (snd (run host prog_name args)) = ""
  \/ (cout (snd (run host prog_name args)) = banner (os_of (target host))
      /\ exists pid core_id,
           In (Enter_set_process_affinity pid core_id)
              (calls (snd (run host prog_name args)))).
Proof.
  run_paths host prog_name args; simpl; intros H; auto;
    try discriminate H; right; (split; [reflexivity |]);
    exists (to_pid host pid), core_id; simpl; auto 10.
Qed.

Lemma failure_prints_no_success_witness :
  cout (snd (run (refusing_host Win64 8) "affinity" ["321"; "2"])) = ""
  \/ (cout (snd (run (refusing_host Win64 8) "affinity" ["321"; "2"]))
      = banner (os_of (target (refusing_host Win64 8)))
      /\ exists pid core_id,
           In (Enter_set_process_affinity pid core_id)
              (calls (snd (run (refusing_host Win64 8) "affinity"
                            ["321"; "2"])))).
Proof.
  apply (failure_prints_no_success (refusing_host Win64 8) "affinity"
           ["321"; "2"]).
  reflexivity.
Defined.

(** ** Running again with the printed numbers *)

Lemma to_pid_native (host : Host) (p : Z) :
  pid_representable (target host) (to_pid host p).
Proof.
  unfold pid_representable, to_pid.
  destruct (os_of (target host)).
  - unfold in_unsigned, unsigned_max.
    pose proof (to_unsigned_range (long_bits (target host)) p
                  ltac:(destruct (target host); simpl; lia)).
    lia.
  - apply to_signed_range. unfold int_bits. lia.
  - apply to_signed_range. destruct (target host); simpl; lia.
Qed.

Lemma affinity_same_native_pid (host : Host) (p1 p2 core_id : Z)
    (a1 a2 b1 b2 : string) :
  to_pid host p1 = to_pid host p2 ->
  let ra := set_process_affinity host p1 core_id
              (world_at_call host a1 a2) in
  let rb := set_process_affinity host p2 core_id
              (world_at_call host b1 b2) in
  fst ra = fst rb
  /\ cout (snd ra) = cout (snd rb)
  /\ cerr (snd ra) = cerr (snd rb).
Proof.
  intros Hpid. cbv zeta.
  destruct (os_of (target host)) eqn:Hos.
  - rewrite (windows_run host p1 core_id _ Hos),
      (windows_run host p2 core_id _ Hos). cbv zeta. rewrite Hpid.
    destruct (_ =? 0); [|destruct (_ && _);
                          [destruct (os_SetProcessAffinityMask _ _ _)|]];
      simpl; auto.
  - rewrite (linux_run host p1 core_id _ Hos),
      (linux_run host p2 core_id _ Hos). cbv zeta. rewrite Hpid.
    destruct (os_sched_setaffinity _ _ _ _); simpl; auto.
  - rewrite (other_run host p1 core_id _ Hos),
      (other_run host p2 core_id _ Hos). simpl. auto.
Qed.

Lemma native_pid_is_long (host : Host) (p : Z) :
  os_of (target host) <> Windows \/ to_pid host p <= 2147483647 ->
  in_signed (long_bits (target host)) (to_pid host p).
Proof.
  intros Hsafe. pose proof (to_pid_native host p) as Hnat.
  unfold pid_representable in Hnat.
  unfold in_signed, signed_min, signed_max, in_unsigned, unsigned_max,
    int_bits in *.
  destruct (target host); simpl in *;
    try (destruct Hsafe as [Hos | Hle]; [congruence |]); lia.
Qed.

(** X18: the numbers in the program's messages can be given back as
    arguments.  When [set_process_affinity] was entered with an identifier
    and a core index, the decimal texts [to_string] gives for the two parse
    to exactly those values, and a run with these texts as arguments enters
    [set_process_affinity] with the same identifier and core index and ends
    with the same exit code, standard output and error stream.  This holds
    on every build but the handle-based one, and there when the identifier
    is at most [2147483647], the largest [long]. *)
Theorem rerun_with_printed_numbers (host : Host) (prog_name : string)
    (args : list string) (pid core_id : Z) :
  In (Enter_set_process_affinity pid core_id)
     (calls (snd (run host prog_name args))) ->
  os_of (target host) <> Windows \/ pid <= 2147483647 ->
  let again := run host prog_name [to_string pid; to_string core_id] in
  stol (target host) (to_string pid) = Value pid
  /\ stoi (target host) (to_string core_id) = Value core_id
  /\ In (Enter_set_process_affinity pid core_id) (calls (snd again))
  /\ fst again = fst (run host prog_name args)
  /\ cout (snd again) = cout (snd (run host prog_name args))
  /\ cerr (snd again) = cerr (snd (run host prog_name args)).
Proof.
  intros Hin Hsafe again. subst again.
  destruct (enter_origin _ _ _ _ _ Hin)
    as (a1 & a2 & p & -> & Hp & Hc & Hrej & ->).
  pose proof (native_pid_is_long host p Hsafe) as Hlong.
  pose proof (stoi_range _ _ _ Hc) as Hint.
  assert (Hint_long : in_signed (long_bits (target host)) core_id).
  { unfold in_signed, signed_min, signed_max, int_bits in *.
    destruct (target host); simpl in *; lia. }
  assert (Hp' : stol (target host) (to_string (to_pid host p))
                = Value (to_pid host p)).
  { unfold stol, sto. rewrite strtol_printed.
    apply in_signedb_spec in Hlong. now rewrite Hlong. }
  assert (Hc' : stoi (target host) (to_string core_id) = Value core_id).
  { unfold stoi, sto. rewrite strtol_printed.
    apply in_signedb_spec in Hint, Hint_long. now rewrite Hint, Hint_long. }
  assert (Hidem : to_pid host (to_pid host p) = to_pid host p)
    by (apply to_pid_representable, to_pid_native).
  split; [exact Hp' | split; [exact Hc' |]].
  rewrite (main_parsed host prog_name _ _ _ _ Hp' Hc').
  rewrite (main_parsed host prog_name a1 a2 p core_id Hp Hc).
  rewrite Hrej.
  destruct (affinity_same_native_pid host (to_pid host p) p core_id
              (to_string (to_pid host p)) (to_string core_id) a1 a2 Hidem)
    as (Hfst & Hout & Herr).
  destruct (affinity_calls host (to_pid host p) core_id
              (world_at_call host (to_string (to_pid host p))
                 (to_string core_id)))
    as (rest & Hcalls & _).
  split.
  - rewrite report_calls, Hcalls, Hidem.
    apply in_or_app. right. left. reflexivity.
  - destruct (set_process_affinity host (to_pid host p) core_id _)
      as [oa wa].
    destruct (set_process_affinity host p core_id _) as [ob wb].
    simpl in Hfst, Hout, Herr. subst ob.
    destruct oa as [u | [| | what] |]; simpl; rewrite ?Hout, ?Herr; auto.
Qed.

Lemma rerun_with_printed_numbers_witness :
  stol Linux64 (to_string 1) = Value 1
  /\ stoi Linux64 (to_string 0) = Value 0
  /\ In (Enter_set_process_affinity 1 0)
        (calls (snd (run (willing_host Linux64 8) "affinity"
                       [to_string 1; to_string 0])))
  /\ fst (run (willing_host Linux64 8) "affinity" [to_string 1; to_string 0])
     = fst (run (willing_host Linux64 8) "affinity" ["4294967297"; "0"])
  /\ cout (snd (run (willing_host Linux64 8) "affinity"
                  [to_string 1; to_string 0]))
     = cout (snd (run (willing_host Linux64 8) "affinity"
                    ["4294967297"; "0"]))
  /\ cerr (snd (run (willing_host Linux64 8) "affinity"
                  [to_string 1; to_string 0]))
     = cerr (snd (run (willing_host Linux64 8) "affinity"
                    ["4294967297"; "0"])).
Proof.
  apply (rerun_with_printed_numbers (willing_host Linux64 8) "affinity"
           ["4294967297"; "0"] 1 0).
  - vm_compute. tauto.
  - left. simpl. discriminate.
Defined.

(** The bound on the handle-based build is needed: there the argument
    ["-1"] is printed as the identifier 4294967295, which [stol] rejects
    as out of range. *)
Example printed_pid_beyond_long :
  cout (snd (run (willing_host Win64 8) "affinity" ["-1"; "3"])) =
    "Running on Windows." ++ endl
    ++ "Successfully set affinity for PID 4294967295 to core 3" ++ endl
  /\ stol Win64 "4294967295" = Failed OutOfRange.
Proof. split; reflexivity. Qed.


(** ** Integer literals and the parser's range *)

(** X19: for an argument that is an integer literal, [stol] delivers its
    value exactly when the value is within [long], and [stoi] exactly when
    it is within [int]; outside the range both report out-of-range, never
    an invalid argument and never a wrapped value. *)
Theorem literal_accepted_iff_in_range (t : Target) (s : string) (v : Z) :
  integer_literal s = Some v ->
  (stol t s = Value v <-> in_signed (long_bits t) v)
  /\ (stoi t s = Value v <-> in_signed int_bits v)
  /\ (~ in_signed (long_bits t) v -> stol t s = Failed OutOfRange)
  /\ (~ in_signed int_bits v -> stoi t s = Failed OutOfRange).
Proof.
  intros Hlit. pose proof (literal_strtol s v Hlit) as Hval.
  assert (Hint_long : in_signed int_bits v -> in_signed (long_bits t) v).
  { unfold in_signed, signed_min, signed_max, int_bits.
    destruct t; simpl; lia. }
  unfold stol, stoi, sto. rewrite Hval.
  destruct (in_signedb (long_bits t) v) eqn:El;
    destruct (in_signedb int_bits v) eqn:Ei; simpl;
    rewrite <- ?in_signedb_spec, ?El, ?Ei;
    repeat split; intros; try reflexivity; try discriminate;
    try congruence.
  apply in_signedb_spec in Ei. apply Hint_long in Ei.
  apply in_signedb_spec in Ei. congruence.
Qed.

Lemma literal_accepted_iff_in_range_witness :
  (stol Win64 "-2147483648" = Value (-2147483648)
   <-> in_signed (long_bits Win64) (-2147483648))
  /\ (stoi Win64 "-2147483648" = Value (-2147483648)
      <-> in_signed int_bits (-2147483648))
  /\ (~ in_signed (long_bits Win64) (-2147483648) ->
      stol Win64 "-2147483648" = Failed OutOfRange)
  /\ (~ in_signed int_bits (-2147483648) ->
      stoi Win64 "-2147483648" = Failed OutOfRange).
Proof.
  apply (literal_accepted_iff_in_range Win64 "-2147483648" (-2147483648)).
  reflexivity.
Defined.
